(** * saego_2025app.py: column resolution, cleaning, grouped statistics
      and correlation classification

    A shallow embedding of the data-handling core of the Streamlit
    dashboard [saego_2025app.py]:

    - [find_similar_columns] and the way its callers pick a column;
    - the preparation of the analysis frame ([data[[...]].copy()],
      [pd.to_numeric(..., errors='coerce')], [dropna()]);
    - the per-school aggregation, its filters and its CSV export;
    - the Pearson correlation between school size and school mean, and the
      three functions that put a coefficient into words.

    Conventions.  A Python [str] is a [string] holding its UTF-8 bytes (the
    substring test [in] gives the same answer on bytes and on code points).
    A float64 is a [float]: a real number, an infinity or NaN; arithmetic on
    finite values is exact (no rounding error, no overflow).  Calls into
    pandas are modelled by what pandas documents for them.  Where the
    rounding of float64 decides a property, the aggregates and the
    coefficient are given a second time at the end of Part I, on binary64
    floats and with the loops pandas runs ([mean64], [std64], [nancorr],
    ...); Part IV runs them. *)

From Stdlib Require Import List String Ascii Bool Arith ZArith Lia.
From Stdlib Require Import Reals Lra Psatz Permutation.
From Stdlib Require Floats.PrimFloat.
Import ListNotations.

Open Scope string_scope.
Open Scope list_scope.

(* ================================================================= *)
(** * Part I: definitions *)
(* ================================================================= *)

(* ----------------------------------------------------------------- *)
(** ** Strings *)

(** [needle in hay] for two Python strings. *)
Fixpoint contains (needle hay : string) : bool :=
  if String.prefix needle hay then true
  else match hay with
       | EmptyString => false
       | String _ hay' => contains needle hay'
       end.

(** [str.lower] restricted to ASCII letters: bytes [A]..[Z] move to
    [a]..[z], every other byte is kept.  This is [str.lower] on ASCII text;
    the general theorems below do not depend on it, they take the
    lower-casing function as a parameter. *)
Definition ascii_lower_char (c : ascii) : ascii :=
  let n := nat_of_ascii c in
  if (65 <=? n)%nat && (n <=? 90)%nat then ascii_of_nat (n + 32) else c.

Fixpoint ascii_lower (s : string) : string :=
  match s with
  | EmptyString => EmptyString
  | String c s' => String (ascii_lower_char c) (ascii_lower s')
  end.

(* ----------------------------------------------------------------- *)
(** ** The column resolver *)

Section Resolver.

(** [str.lower]. *)
Variable lower : string -> string.

(** The inner loop of [find_similar_columns]:
    [for keyword in keywords: if keyword.lower() in col_lower: ...; break].
    [true] when the column is appended. *)
Fixpoint keyword_loop (keywords : list string) (col_lower : string) : bool :=
  match keywords with
  | [] => false
  | keyword :: keywords' =>
      if contains (lower keyword) col_lower then true
      else keyword_loop keywords' col_lower
  end.

(** The outer loop, with [found_columns] as the accumulator. *)
Fixpoint column_loop (columns keywords found_columns : list string)
  : list string :=
  match columns with
  | [] => found_columns
  | col :: columns' =>
      let col_lower := lower col in
      if keyword_loop keywords col_lower
      then column_loop columns' keywords (found_columns ++ [col])
      else column_loop columns' keywords found_columns
  end.

(** [find_similar_columns(data, keywords)], on [data.columns]. *)
Definition find_similar_columns (columns keywords : list string)
  : list string :=
  column_loop columns keywords [].

(** [found[0] if found else <not found>]: the column a caller takes for a
    role (lines 109-110, 795-811, 816, 830, 843). *)
Definition first_found (found : list string) : option string :=
  match found with
  | [] => None
  | col :: _ => Some col
  end.

Definition resolve (columns keywords : list string) : option string :=
  first_found (find_similar_columns columns keywords).

(** The keyword lists of [school_statistics]. *)
Definition pontos_keywords : list string :=
  ["total"; "pontos"; "points"; "score"; "nota"].
Definition escola_keywords : list string :=
  ["escola"; "school"; "colégio"; "colegio"; "instituição"].

(** The column choice of [school_statistics] (lines 80-113): both columns
    are taken from the resolver, or both are left to the select boxes. *)
Inductive column_choice :=
| Automatic (coluna_total_pontos coluna_escola : string)
| Manual.

Definition school_statistics_columns (columns : list string)
  : column_choice :=
  let colunas_pontos := find_similar_columns columns pontos_keywords in
  let colunas_escola := find_similar_columns columns escola_keywords in
  match colunas_pontos, colunas_escola with
  | p :: _, e :: _ => Automatic p e
  | _, _ => Manual
  end.

End Resolver.

(* ----------------------------------------------------------------- *)
(** ** Values, columns and frames *)

(** A float64: a real number, [inf], [-inf] or [NaN].  pandas uses [NaN]
    as its missing marker. *)
Inductive float :=
| Fin (x : R)
| PInf
| NInf
| NaN.

Definition isnan (v : float) : bool :=
  match v with NaN => true | _ => false end.

Definition is_finite (v : float) : bool :=
  match v with Fin _ => true | _ => false end.

(** A value held by a column of dtype [object]: a number or a text. *)
Inductive cell :=
| CNum (v : float)
| CStr (s : string).

(** [pd.isna] on one value. *)
Definition isna (c : cell) : bool :=
  match c with
  | CNum v => isnan v
  | CStr _ => false
  end.

(** A column with its dtype: numeric (int64 or float64, the values read
    as floats) or [object]. *)
Inductive column :=
| NumCol (vals : list float)
| ObjCol (vals : list cell).

Definition dtype_is_object (c : column) : bool :=
  match c with ObjCol _ => true | NumCol _ => false end.

Definition column_cells (c : column) : list cell :=
  match c with
  | NumCol vals => map CNum vals
  | ObjCol vals => vals
  end.

(** A DataFrame: the length of its index and its labelled columns in
    order.  Labels may repeat: [data[[a, a]]] has two columns called [a]. *)
Record frame := {
  index_len : nat;
  cols : list (string * column)
}.

(** [len(frame)]. *)
Definition len (f : frame) : Z := Z.of_nat (index_len f).

(** [frame.columns]. *)
Definition columns (f : frame) : list string := map fst (cols f).

Inductive error :=
| KeyError
| AttributeError
| TypeError.

Inductive result (A : Type) :=
| Ok (a : A)
| Raise (e : error).
Arguments Ok {A} a.
Arguments Raise {A} e.

Definition bind {A B} (r : result A) (k : A -> result B) : result B :=
  match r with
  | Ok a => k a
  | Raise e => Raise e
  end.

Notation "x <- r ;; k" := (bind r (fun x => k))
  (at level 61, r at next level, right associativity).

(** The columns of [cs] labelled [name]. *)
Definition labelled (name : string) (cs : list (string * column))
  : list (string * column) :=
  filter (fun p => String.eqb (fst p) name) cs.

(** [frame[[n1, n2, ...]]]: for each name in turn, every column with that
    label; [KeyError] for a name that labels no column. *)
Fixpoint getitem_list (cs : list (string * column)) (names : list string)
  : result (list (string * column)) :=
  match names with
  | [] => Ok []
  | name :: names' =>
      match labelled name cs with
      | [] => Raise KeyError
      | found => rest <- getitem_list cs names' ;; Ok (found ++ rest)
      end
  end.

(** [frame[name]]: a Series when one column has the label, a DataFrame
    when several have it. *)
Inductive item :=
| Series (c : column)
| DataFrame (cs : list (string * column)).

Definition getitem (cs : list (string * column)) (name : string)
  : result item :=
  match labelled name cs with
  | [] => Raise KeyError
  | [(_, c)] => Ok (Series c)
  | found => Ok (DataFrame found)
  end.

(** [frame[name] = series], for a label that names one column. *)
Definition setitem (cs : list (string * column)) (name : string)
  (c : column) : list (string * column) :=
  map (fun p => if String.eqb (fst p) name then (fst p, c) else p) cs.

(* ----------------------------------------------------------------- *)
(** ** Cleaning *)

Section Cleaning.

(** The number pandas reads in a text, [None] when the text is not a
    number ([pd.to_numeric] would raise [ValueError] on it under
    [errors='raise']). *)
Variable parse_float : string -> option float.

(** [pd.to_numeric(..., errors='coerce')] on one value. *)
Definition coerce_cell (c : cell) : float :=
  match c with
  | CNum v => v
  | CStr s =>
      match parse_float s with
      | Some v => v
      | None => NaN
      end
  end.

Definition to_numeric_coerce (c : column) : column :=
  NumCol (map coerce_cell (column_cells c)).

(** [if data_analysis[col].dtype == 'object':
       data_analysis[col] = pd.to_numeric(data_analysis[col], errors='coerce')]
    (lines 121-126, 425-426, 677-678, 879-880).  A DataFrame has no
    attribute [dtype]. *)
Definition convert_column (cs : list (string * column)) (col : string)
  : result (list (string * column)) :=
  it <- getitem cs col ;;
  match it with
  | DataFrame _ => Raise AttributeError
  | Series c =>
      if dtype_is_object c
      then Ok (setitem cs col (to_numeric_coerce c))
      else Ok cs
  end.

(** [for col in metrics: ...] *)
Fixpoint convert_loop (metrics : list string) (cs : list (string * column))
  : result (list (string * column)) :=
  match metrics with
  | [] => Ok cs
  | col :: metrics' =>
      cs' <- convert_column cs col ;; convert_loop metrics' cs'
  end.

(** [data_analysis = data[[group] + metrics].copy()] followed by the
    conversion loop. *)
Definition prepare (data : frame) (group : string) (metrics : list string)
  : result frame :=
  selected <- getitem_list (cols data) (group :: metrics) ;;
  converted <- convert_loop metrics selected ;;
  Ok {| index_len := index_len data; cols := converted |}.

(** One flag per value: [true] where the value is present. *)
Definition notna_mask (c : column) : list bool :=
  map (fun v => negb (isna v)) (column_cells c).

Fixpoint and_mask (a b : list bool) : list bool :=
  match a, b with
  | x :: a', y :: b' => (x && y) :: and_mask a' b'
  | _, _ => []
  end.

(** One flag per row: [true] where no column has a missing value. *)
Definition row_mask (n : nat) (cs : list (string * column)) : list bool :=
  fold_right (fun p m => and_mask (notna_mask (snd p)) m) (repeat true n) cs.

Fixpoint keep {A : Type} (mask : list bool) (l : list A) : list A :=
  match mask, l with
  | b :: mask', x :: l' => if b then x :: keep mask' l' else keep mask' l'
  | _, _ => []
  end.

Definition keep_column (mask : list bool) (c : column) : column :=
  match c with
  | NumCol vals => NumCol (keep mask vals)
  | ObjCol vals => ObjCol (keep mask vals)
  end.

(** [frame.dropna()]: the rows without a missing value.  Infinities are
    values, not missing. *)
Definition dropna (f : frame) : frame :=
  let mask := row_mask (index_len f) (cols f) in
  {| index_len := List.length (filter (fun b : bool => b) mask);
     cols := map (fun p => (fst p, keep_column mask (snd p))) (cols f) |}.

(** What the preparation block reports (lines 129-135). *)
Record cleaning := {
  data_clean : frame;
  initial_count : Z;
  final_count : Z;
  removed_count : Z
}.

Definition clean (data : frame) (group : string) (metrics : list string)
  : result cleaning :=
  data_analysis <- prepare data group metrics ;;
  let initial := len data_analysis in
  let cleaned := dropna data_analysis in
  let final := len cleaned in
  Ok {| data_clean := cleaned;
        initial_count := initial;
        final_count := final;
        removed_count := (initial - final)%Z |}.

(** The preparation of [school_statistics] (lines 116-135): one metric. *)
Definition school_statistics_clean (data : frame)
  (coluna_escola coluna_total_pontos : string) : result cleaning :=
  clean data coluna_escola [coluna_total_pontos].

End Cleaning.

(* ----------------------------------------------------------------- *)
(** ** Comparisons and rounding on numbers *)

Definition Rleb (a b : R) : bool := if Rle_dec a b then true else false.
Definition Rltb (a b : R) : bool := if Rlt_dec a b then true else false.
Definition Reqb (a b : R) : bool := if Req_dec_T a b then true else false.

(** The largest integer below or at [x]. *)
Definition Rfloor (x : R) : Z := (up x - 1)%Z.

(** [numpy.rint]: the nearest integer, a tie going to the even one. *)
Definition rint (x : R) : Z :=
  let n := Rfloor x in
  let d := (x - IZR n)%R in
  if Rltb d (1 / 2) then n
  else if Rltb (1 / 2) d then (n + 1)%Z
  else if Z.even n then n else (n + 1)%Z.

(** [numpy.round(x, decimals)] on a real: [rint(x * 10**d) / 10**d]. *)
Definition round_real (x : R) (decimals : nat) : R :=
  (IZR (rint (x * 10 ^ decimals)) / 10 ^ decimals)%R.

(** [.round(decimals)] on a float: infinities and NaN are left alone. *)
Definition round (v : float) (decimals : nat) : float :=
  match v with
  | Fin x => Fin (round_real x decimals)
  | _ => v
  end.

(** Stable insertion sort by a comparison [leb]. *)
Fixpoint insert_by {A : Type} (leb : A -> A -> bool) (x : A) (l : list A)
  : list A :=
  match l with
  | [] => [x]
  | y :: l' => if leb x y then x :: l else y :: insert_by leb x l'
  end.

Definition sort_by {A : Type} (leb : A -> A -> bool) (l : list A) : list A :=
  fold_right (insert_by leb) [] l.

(* ----------------------------------------------------------------- *)
(** ** Statistics of one group *)

Definition Rsum (l : list R) : R := fold_right Rplus 0%R l.

(** ['mean'] *)
Definition mean (vals : list R) : float :=
  match vals with
  | [] => NaN
  | _ => Fin (Rsum vals / INR (List.length vals))%R
  end.

(** ['median']: the middle of the sorted values, the mean of the two
    middle ones when their number is even. *)
Definition median (vals : list R) : float :=
  let sorted := sort_by Rleb vals in
  let n := List.length vals in
  match vals with
  | [] => NaN
  | _ =>
      if Nat.even n
      then Fin ((nth (n / 2 - 1)%nat sorted 0 + nth (n / 2)%nat sorted 0) / 2)%R
      else Fin (nth (n / 2) sorted 0%R)
  end.

(** ['min'] and ['max'] *)
Definition minimum (vals : list R) : float :=
  match vals with
  | [] => NaN
  | x :: rest => Fin (fold_right Rmin x rest)
  end.

Definition maximum (vals : list R) : float :=
  match vals with
  | [] => NaN
  | x :: rest => Fin (fold_right Rmax x rest)
  end.

(** ['std']: pandas' default [ddof=1], the sample standard deviation; with
    [ddof] or fewer values the result is NaN. *)
Definition std (vals : list R) : float :=
  let n := List.length vals in
  if (n <=? 1)%nat then NaN
  else
    let m := (Rsum vals / INR n)%R in
    Fin (sqrt (Rsum (map (fun x => (x - m) * (x - m))%R vals) / (INR n - 1)))%R.

(** One row of [estatisticas_escolas_reset]: the group label and the six
    aggregates, under the source's column names ([Média], [Mediana],
    [Mínimo], [Máximo], [Desvio_Padrão], [Quantidade_Alunos]). *)
Record linha := {
  Escola : cell;
  Media : float;
  Mediana : float;
  Minimo : float;
  Maximo : float;
  Desvio_Padrao : float;
  Quantidade_Alunos : Z
}.

(** The values an aggregate works on: NaN is skipped. *)
Definition present (vals : list float) : list float :=
  filter (fun v => negb (isnan v)) vals.

Fixpoint finite_values (vals : list float) : option (list R) :=
  match vals with
  | [] => Some []
  | Fin x :: vals' =>
      match finite_values vals' with
      | Some xs => Some (x :: xs)
      | None => None
      end
  | _ :: _ => None
  end.

(** Identity and order of group labels.  pandas sorts numbers before
    texts when a key column mixes them. *)
Definition float_eqb (a b : float) : bool :=
  match a, b with
  | Fin x, Fin y => Reqb x y
  | PInf, PInf => true
  | NInf, NInf => true
  | NaN, NaN => true
  | _, _ => false
  end.

Definition cell_eqb (a b : cell) : bool :=
  match a, b with
  | CNum x, CNum y => float_eqb x y
  | CStr s, CStr t => String.eqb s t
  | _, _ => false
  end.

(** Ascending order on floats, NaN last. *)
Definition float_leb (a b : float) : bool :=
  match a, b with
  | _, NaN => true
  | NaN, _ => false
  | NInf, _ => true
  | _, NInf => false
  | _, PInf => true
  | PInf, _ => false
  | Fin x, Fin y => Rleb x y
  end.

Definition cell_leb (a b : cell) : bool :=
  match a, b with
  | CNum x, CNum y => float_leb x y
  | CNum _, CStr _ => true
  | CStr _, CNum _ => false
  | CStr s, CStr t => String.leb s t
  end.

(** Descending order on floats, NaN last ([ascending=False] with pandas'
    default [na_position='last']). *)
Definition float_geb (a b : float) : bool :=
  match a, b with
  | _, NaN => true
  | NaN, _ => false
  | _, _ => float_leb b a
  end.

(** The distinct values of a list, in order of first appearance. *)
Fixpoint unique (l : list cell) : list cell :=
  match l with
  | [] => []
  | x :: l' => x :: filter (fun y => negb (cell_eqb y x)) (unique l')
  end.

(* ----------------------------------------------------------------- *)
(** ** The grouped statistics of [school_statistics] *)

Section Aggregation.

(** The five aggregates pandas returns for a group that holds an
    infinity.  They depend on pandas' summation order and are left open:
    only their label and count are fixed by the model. *)
Variable nonfinite_agg : list float -> linha.

(** [.agg([('Média','mean'), ('Mediana','median'), ('Mínimo','min'),
          ('Máximo','max'), ('Desvio_Padrão','std'),
          ('Quantidade_Alunos','count')])] on the values of one group. *)
Definition agg (label : cell) (vals : list float) : linha :=
  let vals := present vals in
  let count := Z.of_nat (List.length vals) in
  match finite_values vals with
  | Some xs =>
      {| Escola := label;
         Media := mean xs;
         Mediana := median xs;
         Minimo := minimum xs;
         Maximo := maximum xs;
         Desvio_Padrao := std xs;
         Quantidade_Alunos := count |}
  | None =>
      let s := nonfinite_agg vals in
      {| Escola := label;
         Media := Media s;
         Mediana := Mediana s;
         Minimo := Minimo s;
         Maximo := Maximo s;
         Desvio_Padrao := Desvio_Padrao s;
         Quantidade_Alunos := count |}
  end.

(** [.round(2)]: the float columns are rounded, the count is an integer. *)
Definition round_linha (l : linha) (decimals : nat) : linha :=
  {| Escola := Escola l;
     Media := round (Media l) decimals;
     Mediana := round (Mediana l) decimals;
     Minimo := round (Minimo l) decimals;
     Maximo := round (Maximo l) decimals;
     Desvio_Padrao := round (Desvio_Padrao l) decimals;
     Quantidade_Alunos := Quantidade_Alunos l |}.

(** [groupby(coluna_escola)]: the distinct present labels, sorted, and
    for each label the metric values of its rows in row order. *)
Definition group_keys (rows : list (cell * float)) : list cell :=
  sort_by cell_leb
    (unique (filter (fun k => negb (isna k)) (map fst rows))).

Definition group_values (rows : list (cell * float)) (key : cell)
  : list float :=
  map snd (filter (fun r => cell_eqb (fst r) key) rows).

(** Lines 153-166: aggregate, round to two decimals, sort by [Média]
    descending, reset the index. *)
Definition estatisticas_escolas_reset (rows : list (cell * float))
  : list linha :=
  sort_by (fun a b => float_geb (Media a) (Media b))
    (map (fun key => round_linha (agg key (group_values rows key)) 2)
       (group_keys rows)).

(** The table the view shows and the table it hands to [to_csv]. *)
Record table := {
  header : list string;
  body : list linha
}.

Definition stats_header (coluna_escola : string) : list string :=
  [coluna_escola; "Média"; "Mediana"; "Mínimo"; "Máximo";
   "Desvio_Padrão"; "Quantidade_Alunos"].

(** Lines 191-194: the row mask
    [(Quantidade_Alunos >= min_alunos) &
     (escola.isin(escolas_filtradas) if escolas_filtradas else True)]. *)
Definition passes (min_alunos : Z) (escolas_filtradas : list cell)
  (l : linha) : bool :=
  (min_alunos <=? Quantidade_Alunos l)%Z
  && match escolas_filtradas with
     | [] => true
     | _ => existsb (cell_eqb (Escola l)) escolas_filtradas
     end.

Definition estatisticas_filtradas (reset : list linha) (min_alunos : Z)
  (escolas_filtradas : list cell) : list linha :=
  filter (passes min_alunos escolas_filtradas) reset.

(** Line 196: [st.dataframe(estatisticas_filtradas)]. *)
Definition displayed (coluna_escola : string) (reset : list linha)
  (min_alunos : Z) (escolas_filtradas : list cell) : table :=
  {| header := stats_header coluna_escola;
     body := estatisticas_filtradas reset min_alunos escolas_filtradas |}.

(** Line 359: [csv = estatisticas_escolas_reset.to_csv(index=False)]:
    the table whose header line and rows make the CSV text. *)
Definition exported (coluna_escola : string) (reset : list linha)
  (min_alunos : Z) (escolas_filtradas : list cell) : table :=
  {| header := stats_header coluna_escola;
     body := reset |}.

End Aggregation.

(* ----------------------------------------------------------------- *)
(** ** The view of [school_statistics] *)

(** What one run of [school_statistics] ends in, after the column choice:
    one of the two early returns, the [except] branch, or the table put
    on the page together with the table written to the CSV download. *)
Inductive outcome :=
| NoValidData
| NoSchools
| Failed (e : error)
| Shown (shown csv : table).

Section View.

Variable parse_float : string -> option float.
Variable nonfinite_agg : list float -> linha.

(** Lines 116-365.  An exception before the [try] of line 152 leaves the
    function; one inside it is caught by line 367. *)
Definition school_statistics (data : frame)
  (coluna_escola coluna_total_pontos : string)
  (min_alunos : Z) (escolas_filtradas : list cell) : result outcome :=
  c <- school_statistics_clean parse_float data
         coluna_escola coluna_total_pontos ;;
  if (final_count c =? 0)%Z then Ok NoValidData
  else
    escolas <- getitem (cols (data_clean c)) coluna_escola ;;
    match escolas with
    | DataFrame _ => Raise TypeError
    | Series escolas =>
        let labels := column_cells escolas in
        if (List.length (unique (filter (fun k => negb (isna k)) labels))
            =? 0)%nat
        then Ok NoSchools
        else
          match getitem (cols (data_clean c)) coluna_total_pontos with
          | Ok (Series (NumCol vals)) =>
              let reset :=
                estatisticas_escolas_reset nonfinite_agg
                  (combine labels vals) in
              Ok (Shown
                    (displayed coluna_escola reset
                       min_alunos escolas_filtradas)
                    (exported coluna_escola reset
                       min_alunos escolas_filtradas))
          | Ok _ => Ok (Failed TypeError)
          | Raise e => Ok (Failed e)
          end
    end.

End View.

(* ----------------------------------------------------------------- *)
(** ** Correlation between school size and school mean *)

(** The clipping pandas applies to a coefficient. *)
Definition clip (val : R) : R :=
  if Rltb 1 val then 1%R
  else if Rltb val (-1) then (-1)%R
  else val.

(** [DataFrame.corr()] for one pair of columns (Pearson, no missing
    values): the co-moment over the root of the product of the two sums of
    squared deviations, NaN when that root is zero or there is no row. *)
Definition pearson (xs ys : list R) : float :=
  let n := List.length xs in
  if (n =? 0)%nat then NaN
  else
    let meanx := (Rsum xs / INR n)%R in
    let meany := (Rsum ys / INR n)%R in
    let ssqdmx := Rsum (map (fun x => (x - meanx) * (x - meanx))%R xs) in
    let ssqdmy := Rsum (map (fun y => (y - meany) * (y - meany))%R ys) in
    let covxy :=
      Rsum (map (fun p => (fst p - meanx) * (snd p - meany))%R
              (combine xs ys)) in
    let divisor := sqrt (ssqdmx * ssqdmy) in
    if Reqb divisor 0 then NaN else Fin (clip (covxy / divisor)).

(** Lines 1005-1010: the entry of [corr_matrix = data_corr.corr().round(3)]
    for [Quantidade_Alunos] and one [Media_...] column; one point per
    school, its number of students and its mean. *)
Definition correlacao (medias_por_escola : list (Z * R)) : float :=
  round (pearson (map (fun p => IZR (fst p)) medias_por_escola)
           (map snd medias_por_escola)) 3.

(* ----------------------------------------------------------------- *)
(** ** Putting a coefficient into words *)

(** [r >= c] and [r > c] for a float [r]: false when [r] is NaN. *)
Definition fge (r : float) (c : R) : bool :=
  match r with
  | Fin x => Rleb c x
  | PInf => true
  | NInf | NaN => false
  end.

Definition fgt (r : float) (c : R) : bool :=
  match r with
  | Fin x => Rltb c x
  | PInf => true
  | NInf | NaN => false
  end.

(** [abs(r)] *)
Definition fabs (r : float) : float :=
  match r with
  | Fin x => Fin (Rabs x)
  | PInf | NInf => PInf
  | NaN => NaN
  end.

Definition interpretar_correlacao_detalhada (r : float) : string :=
  if fge r (7 / 10) then
    "Correlação positiva forte: escolas com mais alunos tendem a ter desempenho significativamente melhor"
  else if fge r (5 / 10) then
    "Correlação positiva moderada: existe uma relação positiva entre tamanho da escola e desempenho"
  else if fge r (3 / 10) then
    "Correlação positiva fraca: leve tendência de escolas maiores terem melhor desempenho"
  else if fgt r (- (3 / 10)) then
    "Correlação muito fraca ou nula: praticamente não há relação entre tamanho da escola e desempenho"
  else if fgt r (- (5 / 10)) then
    "Correlação negativa fraca: leve tendência de escolas menores terem melhor desempenho"
  else if fgt r (- (7 / 10)) then
    "Correlação negativa moderada: escolas menores tendem a ter melhor desempenho"
  else
    "Correlação negativa forte: escolas com menos alunos tendem a ter desempenho significativamente melhor".

Definition interpretar_correlacao_simples (r : float) : string :=
  if fge r (7 / 10) then "Correlação positiva forte"
  else if fge r (5 / 10) then "Correlação positiva moderada"
  else if fge r (3 / 10) then "Correlação positiva fraca"
  else if fgt r (- (3 / 10)) then "Correlação muito fraca ou nula"
  else if fgt r (- (5 / 10)) then "Correlação negativa fraca"
  else if fgt r (- (7 / 10)) then "Correlação negativa moderada"
  else "Correlação negativa forte".

Definition classificar_forca_correlacao (r : float) : string :=
  let abs_r := fabs r in
  if fge abs_r (7 / 10) then "Forte"
  else if fge abs_r (5 / 10) then "Moderada"
  else if fge abs_r (3 / 10) then "Fraca"
  else "Muito Fraca".

(** The sign a sentence of the two interpreters speaks of. *)
Inductive direction := Positive | Negative | NoDirection.

Definition direction_of (r : float) : direction :=
  let s := interpretar_correlacao_simples r in
  if contains "positiva" s then Positive
  else if contains "negativa" s then Negative
  else NoDirection.

(* ----------------------------------------------------------------- *)
(** ** Predicates used to state the properties *)

(** [needle] occurs in [hay]. *)
Definition Substring (needle hay : string) : Prop :=
  exists pre post, hay = (pre ++ needle ++ post)%string.

(** A column matches a role: its lower-cased name holds one of the role's
    keywords. *)
Definition Matches (lower : string -> string) (keywords : list string)
  (col : string) : Prop :=
  exists keyword, In keyword keywords /\ Substring keyword (lower col).

(** What the resolver tests: the keyword is lower-cased too. *)
Definition MatchesLowered (lower : string -> string) (keywords : list string)
  (col : string) : Prop :=
  exists keyword,
    In keyword keywords /\ Substring (lower keyword) (lower col).

(** [sub] keeps some elements of [l], in the order of [l]. *)
Inductive Sublist {A : Type} : list A -> list A -> Prop :=
| Sublist_nil : Sublist [] []
| Sublist_skip : forall x sub l, Sublist sub l -> Sublist sub (x :: l)
| Sublist_take : forall x sub l, Sublist sub l -> Sublist (x :: sub) (x :: l).

(** [mask] is [true] only where [bound] is: position by position, and
    [mask] is no longer than [bound]. *)
Inductive mask_within : list bool -> list bool -> Prop :=
| mask_within_nil : forall bound, mask_within [] bound
| mask_within_cons : forall b c mask bound,
    (b = true -> c = true) ->
    mask_within mask bound ->
    mask_within (b :: mask) (c :: bound).

(** Every value of every column is present. *)
Definition no_missing (cs : list (string * column)) : Prop :=
  forall name c v, In (name, c) cs -> In v (column_cells c) -> isna v = false.

(** Every column labelled by one of [names] is numeric and holds numbers
    only: finite values or infinities, never NaN, never a text. *)
Definition numeric_columns (names : list string)
  (cs : list (string * column)) : Prop :=
  forall name c, In name names -> In (name, c) cs ->
    exists vals, c = NumCol vals /\ forall v, In v vals -> isnan v = false.

(** Every value of the columns labelled by [names] is a finite number. *)
Definition finite_columns (names : list string)
  (cs : list (string * column)) : Prop :=
  forall name c v, In name names -> In (name, c) cs ->
    In v (column_cells c) -> exists x, v = CNum (Fin x).

(** The frame the conversion loop ends with, written in one pass: each
    column labelled by a metric is replaced by its coerced version. *)
Definition converted (parse_float : string -> option float)
  (metrics : list string) (cs : list (string * column))
  : list (string * column) :=
  map (fun p =>
         if existsb (String.eqb (fst p)) metrics
         then (fst p, to_numeric_coerce parse_float (snd p))
         else p) cs.


(** A frame of four students in two schools. *)
Definition scenario_data : frame :=
  {| index_len := 4;
     cols := [("Escola", ObjCol [CStr "A"; CStr "B"; CStr "A"; CStr "A"]);
              ("Pontos", NumCol [Fin 10; Fin 5; Fin 20; Fin 30])] |}.

(* ----------------------------------------------------------------- *)
(** ** The summary of the correlations *)

(** [r < c] for a float [r]: false when [r] is NaN. *)
Definition flt (r : float) (c : R) : bool :=
  match r with
  | Fin x => Rltb x c
  | NInf => true
  | PInf | NaN => false
  end.

(** Lines 1189-1190 and 1214-1215:
    [len([r for r in resumo_df['Correlação (r)'] if r > 0])] and the same
    with [r < 0]. *)
Definition correlacoes_positivas (rs : list float) : nat :=
  List.length (filter (fun r => fgt r 0) rs).

Definition correlacoes_negativas (rs : list float) : nat :=
  List.length (filter (fun r => flt r 0) rs).

(** Lines 1203-1207: for each of the four strengths, the number of rows of
    [resumo_df] whose [Força] is that strength. *)
Definition forcas : list string :=
  ["Forte"; "Moderada"; "Fraca"; "Muito Fraca"].

Definition contagem_forca (rs : list float) (forca : string) : nat :=
  List.length
    (filter (fun r => String.eqb (classificar_forca_correlacao r) forca) rs).

(** Lines 1224-1245: the recommendation shown under the summary, for a
    summary that has at least one row (line 1212). *)
Inductive recomendacao :=
| VantagemEscolasMaiores
| VantagemEscolasMenores
| RelacaoLimitada.

Definition recomendar (rs : list float) : recomendacao :=
  if existsb (fun r => fgt r (5 / 10)) rs then VantagemEscolasMaiores
  else if existsb (fun r => flt r (- (5 / 10))) rs then VantagemEscolasMenores
  else RelacaoLimitada.

(** Lines 937-941: [pd.cut(Quantidade_Alunos, bins=[0, 50, 100, 200, inf],
    labels=[...])], intervals closed on the right; a value outside every
    interval has no category. *)
Definition tamanho_escola (quantidade : Z) : option string :=
  if (quantidade <=? 0)%Z then None
  else if (quantidade <=? 50)%Z then Some "Pequena (≤50)"
  else if (quantidade <=? 100)%Z then Some "Média (51-100)"
  else if (quantidade <=? 200)%Z then Some "Grande (101-200)"
  else Some "Muito Grande (>200)".

(** Lines 343-345 and 952: [...['Quantidade_Alunos'].sum()]. *)
Definition total_alunos (tabela : list linha) : Z :=
  fold_right Z.add 0%Z (map Quantidade_Alunos tabela).

(** Every column of the frame has one value per row of the index. *)
Definition well_formed (f : frame) : Prop :=
  forall name c, In (name, c) (cols f) ->
    List.length (column_cells c) = index_len f.

(** The values of a list are all the same. *)
Definition constant {A : Type} (l : list A) : Prop :=
  forall x y, In x l -> In y l -> x = y.

(** Lines 180-186: what the multiselect holds before the user touches it,
    [estatisticas_escolas_reset[coluna_escola].head(10).tolist()]. *)
Definition default_escolas_filtradas (reset : list linha) : list cell :=
  firstn 10 (map Escola reset).

(** A row the aggregation counts: its label is present and its value is
    not NaN. *)
Definition counted (r : cell * float) : bool :=
  negb (isna (fst r)) && negb (isnan (snd r)).

(* ----------------------------------------------------------------- *)
(** ** The branch [column_analysis] takes *)

Section ColumnAnalysis.

Variable lower : string -> string.

(** The keyword lists of [column_analysis] (lines 379-381); its school
    keywords are those of [school_statistics]. *)
Definition nota_lp_keywords : list string :=
  ["nota lp"; "nota_lp"; "portugues"; "português"; "lingua portuguesa"].
Definition nota_mat_keywords : list string :=
  ["nota mat"; "nota_mat"; "matemática"; "matematica"; "math"].

(** [any(keyword in col.lower() for keyword in keywords)]: here the
    keyword is not lower-cased. *)
Definition any_keyword_in (keywords : list string) (col : string) : bool :=
  existsb (fun keyword => contains keyword (lower col)) keywords.

(** Lines 411-413. *)
Definition tem_escola (coluna_agrupamento : string) : bool :=
  any_keyword_in escola_keywords coluna_agrupamento.
Definition tem_nota_lp (colunas_analise : list string) : bool :=
  existsb (any_keyword_in nota_lp_keywords) colunas_analise.
Definition tem_nota_mat (colunas_analise : list string) : bool :=
  existsb (any_keyword_in nota_mat_keywords) colunas_analise.

(** [list.index]: the first position of a value, [None] where Python
    raises [ValueError]. *)
Fixpoint index (x : string) (l : list string) : option nat :=
  match l with
  | [] => None
  | y :: l' =>
      if String.eqb y x then Some 0%nat
      else match index x l' with
           | Some i => Some (S i)
           | None => None
           end
  end.

(** Lines 389-394: what the select box holds before the user touches it,
    the option at
    [columns.index(colunas_escola[0]) if colunas_escola else 0];
    [None] when there is no option. *)
Definition default_coluna_agrupamento (columns : list string)
  : option string :=
  match find_similar_columns lower columns escola_keywords with
  | escola :: _ =>
      match index escola columns with
      | Some i => nth_error columns i
      | None => None
      end
  | [] => nth_error columns 0
  end.

(** Lines 397-402: the default of the multiselect,
    [colunas_nota_lp[:1] + colunas_nota_mat[:1]
     if colunas_nota_lp or colunas_nota_mat else []]. *)
Definition default_colunas_analise (columns : list string) : list string :=
  let colunas_nota_lp := find_similar_columns lower columns nota_lp_keywords in
  let colunas_nota_mat :=
    find_similar_columns lower columns nota_mat_keywords in
  match colunas_nota_lp, colunas_nota_mat with
  | [], [] => []
  | _, _ => firstn 1 colunas_nota_lp ++ firstn 1 colunas_nota_mat
  end.

(** Lines 443-449. *)
Definition descricao_analise (tem_nota_lp tem_nota_mat : bool) : string :=
  if tem_nota_lp && negb tem_nota_mat then "médias em Português"
  else if tem_nota_mat && negb tem_nota_lp then "médias em Matemática"
  else if tem_nota_lp && tem_nota_mat
       then "médias em Português e Matemática"
       else "".

(** The three ways [column_analysis] goes on after the two widgets
    (lines 406-416 and 660): the warning and return, the analysis of
    grades by school with its description, the general analysis. *)
Inductive analise :=
| SemSelecao
| AnalisePorEscola (descricao : string)
| AnaliseGeral.

Definition column_analysis_branch (coluna_agrupamento : option string)
  (colunas_analise : list string) : analise :=
  match coluna_agrupamento, colunas_analise with
  | None, _ | Some EmptyString, _ | _, [] => SemSelecao
  | Some coluna_agrupamento, _ =>
      let lp := tem_nota_lp colunas_analise in
      let mat := tem_nota_mat colunas_analise in
      if tem_escola coluna_agrupamento && (lp || mat)
      then AnalisePorEscola (descricao_analise lp mat)
      else AnaliseGeral
  end.

End ColumnAnalysis.

(* ----------------------------------------------------------------- *)
(** ** The count of missing values of [basic_statistics] *)

(** Line 42: [data.isnull().sum().sum()], the number of missing values
    of the frame, column by column. *)
Definition valores_nulos (f : frame) : nat :=
  fold_right Nat.add 0%nat
    (map (fun p => List.length (filter isna (column_cells (snd p))))
       (cols f)).

(* ----------------------------------------------------------------- *)
(** ** Schools by size in [correlation_analysis] *)

(** Lines 900-921: the column [Quantidade_Alunos] of [medias_por_escola],
    the ['count'] of the first metric in each school. *)
Definition quantidade_alunos (rows : list (cell * float)) : list Z :=
  map (fun key => Z.of_nat (List.length (present (group_values rows key))))
    (group_keys rows).

(** The labels of line 940. *)
Definition tamanhos : list string :=
  ["Pequena (≤50)"; "Média (51-100)"; "Grande (101-200)";
   "Muito Grande (>200)"].

(** Line 974: [medias_por_escola['Tamanho_Escola'].value_counts()], the
    number of schools of one size; a school without a category is counted
    nowhere. *)
Definition tem_tamanho (tamanho : string) (quantidade : Z) : bool :=
  match tamanho_escola quantidade with
  | Some t => String.eqb t tamanho
  | None => false
  end.

Definition dist_tamanho (quantidades : list Z) (tamanho : string) : nat :=
  List.length (filter (tem_tamanho tamanho) quantidades).

(** A list is ordered by [leb]: each element stands before those that
    follow it, all of them. *)
Inductive ordered_by {A : Type} (leb : A -> A -> bool) : list A -> Prop :=
| ordered_nil : ordered_by leb []
| ordered_cons : forall x l,
    (forall y, In y l -> leb x y = true) ->
    ordered_by leb l ->
    ordered_by leb (x :: l).

(* ----------------------------------------------------------------- *)
(** ** The column names of [medias_por_escola] *)

(** A Python dict as an association list in insertion order: setting a
    key that is there keeps its place. *)
Fixpoint dict_set {V : Type} (d : list (string * V)) (k : string) (v : V)
  : list (string * V) :=
  match d with
  | [] => [(k, v)]
  | (k', v') :: d' =>
      if String.eqb k' k then (k, v) :: d' else (k', v') :: dict_set d' k v
  end.

Fixpoint dict_get {V : Type} (d : list (string * V)) (k : string)
  : option V :=
  match d with
  | [] => None
  | (k', v') :: d' => if String.eqb k' k then Some v' else dict_get d' k
  end.

Section Rename.

(** [str.strip]. *)
Variable strip : string -> string.

(** Lines 900-906: ['mean'] for every metric, then [['count', 'mean']]
    for the first one.  The list is not empty (line 862). *)
Definition agg_dict (colunas_desempenho : list string)
  : list (string * list string) :=
  let d :=
    fold_left (fun d coluna => dict_set d coluna ["mean"])
      colunas_desempenho [] in
  match colunas_desempenho with
  | [] => d
  | primeira :: _ => dict_set d primeira ["count"; "mean"]
  end.

(** Lines 909-913: the columns of the aggregated frame, the two levels
    joined by ["_"] and stripped, after [reset_index]. *)
Definition colunas_agregadas (coluna_escola : string)
  (colunas_desempenho : list string) : list string :=
  coluna_escola
  :: flat_map (fun kv =>
                 map (fun f => strip (fst kv ++ "_" ++ f)%string) (snd kv))
       (agg_dict colunas_desempenho).

(** Lines 919-922: the first column whose name holds ["_count"]. *)
Definition primeira_count (columns : list string) : option string :=
  find (contains "_count") columns.

(** Lines 916-927: the dict given to [rename]. *)
Definition rename_dict (coluna_escola : string)
  (colunas_desempenho columns : list string) : list (string * string) :=
  let d0 := [(coluna_escola, "Escola")] in
  let d1 :=
    match primeira_count columns with
    | Some col => dict_set d0 col "Quantidade_Alunos"
    | None => d0
    end in
  fold_left
    (fun d coluna =>
       fold_left
         (fun d col =>
            if contains (coluna ++ "_mean") col
            then dict_set d col ("Media_" ++ coluna)%string
            else d)
         columns d)
    colunas_desempenho d1.

(** Line 929: [rename(columns=rename_dict)]. *)
Definition rename (columns : list string) (d : list (string * string))
  : list string :=
  map (fun col => match dict_get d col with
                  | Some novo => novo
                  | None => col
                  end) columns.

Definition medias_por_escola_columns (coluna_escola : string)
  (colunas_desempenho : list string) : list string :=
  let columns := colunas_agregadas coluna_escola colunas_desempenho in
  rename columns (rename_dict coluna_escola colunas_desempenho columns).

(** Line 998. *)
Definition colunas_media (columns : list string) : list string :=
  filter (String.prefix "Media_") columns.

End Rename.

(** The name [rename] gives a column, in one step: the last metric whose
    pattern occurs in the column decides; failing that the first column
    with ["_count"] becomes the count, and the school column the school. *)
Definition novo_nome (coluna_escola : string)
  (colunas_desempenho columns : list string) (col : string) : string :=
  match find (fun coluna => contains (coluna ++ "_mean") col)
          (rev colunas_desempenho) with
  | Some coluna => ("Media_" ++ coluna)%string
  | None =>
      match primeira_count columns with
      | Some c =>
          if String.eqb c col then "Quantidade_Alunos"
          else if String.eqb coluna_escola col then "Escola" else col
      | None => if String.eqb coluna_escola col then "Escola" else col
      end
  end.

(* ----------------------------------------------------------------- *)
(** ** The aggregates and the coefficient in binary64 *)



Section Binary64.

Import PrimFloat.
Local Open Scope float_scope.


















End Binary64.

(* ================================================================= *)
(** * Part II: properties *)
(* ================================================================= *)

(* ----------------------------------------------------------------- *)
(** ** Strings *)

Lemma prefix_true_iff (needle hay : string) :
  String.prefix needle hay = true <-> exists post, hay = (needle ++ post)%string.
Proof.
  revert hay; induction needle as [|a needle IH]; intros hay.
  - destruct hay; simpl; (split; [intros _; eexists; reflexivity | reflexivity]).
  - destruct hay as [|b hay]; simpl.
    + split; [discriminate | intros [post H]; discriminate].
    + destruct (ascii_dec a b) as [->|Hab].
      * rewrite IH. split; intros [post H]; exists post.
        -- now rewrite H.
        -- now inversion H.
      * split; [discriminate | intros [post H]; inversion H; congruence].
Qed.

Lemma contains_unfold (needle hay : string) :
  contains needle hay =
  if String.prefix needle hay then true
  else match hay with
       | EmptyString => false
       | String _ hay' => contains needle hay'
       end.
Proof. destruct hay; reflexivity. Qed.

Lemma contains_true_iff (needle hay : string) :
  contains needle hay = true <-> Substring needle hay.
Proof.
  unfold Substring.
  induction hay as [|b hay IH]; rewrite contains_unfold.
  - destruct (String.prefix needle "") eqn:E.
    + split; [intros _|reflexivity].
      apply prefix_true_iff in E as [post H]. exists "", post. exact H.
    + split; [discriminate|].
      intros [pre [post H]].
      destruct pre; simpl in H; [|discriminate].
      assert (String.prefix needle "" = true) as E'
        by (apply prefix_true_iff; exists post; exact H).
      congruence.
  - destruct (String.prefix needle (String b hay)) eqn:E.
    + split; [intros _|reflexivity].
      apply prefix_true_iff in E as [post H]. exists "", post. exact H.
    + rewrite IH. split.
      * intros [pre [post H]]. exists (String b pre), post. simpl. now rewrite H.
      * intros [pre [post H]].
        destruct pre as [|c pre]; simpl in H.
        -- assert (String.prefix needle (String b hay) = true) as E'
             by (apply prefix_true_iff; exists post; exact H).
           congruence.
        -- inversion H; subst. exists pre, post. reflexivity.
Qed.

(* ----------------------------------------------------------------- *)
(** ** The column resolver *)

Section ResolverFacts.

Variable lower : string -> string.

Lemma keyword_loop_existsb keywords col_lower :
  keyword_loop lower keywords col_lower
  = existsb (fun keyword => contains (lower keyword) col_lower) keywords.
Proof.
  induction keywords as [|k ks IH]; simpl; [reflexivity|].
  rewrite IH. now destruct (contains (lower k) col_lower).
Qed.

Lemma keyword_loop_true_iff keywords col :
  keyword_loop lower keywords (lower col) = true
  <-> MatchesLowered lower keywords col.
Proof.
  rewrite keyword_loop_existsb, existsb_exists. unfold MatchesLowered.
  split; intros [k [Hin Hk]]; exists k; split; trivial;
    now apply contains_true_iff.
Qed.

Lemma column_loop_filter columns keywords found_columns :
  column_loop lower columns keywords found_columns
  = found_columns
    ++ filter (fun col => keyword_loop lower keywords (lower col)) columns.
Proof.
  revert found_columns.
  induction columns as [|col columns IH]; intros found; simpl.
  - now rewrite app_nil_r.
  - destruct (keyword_loop lower keywords (lower col)); rewrite IH.
    + now rewrite <- app_assoc.
    + reflexivity.
Qed.

Lemma find_similar_columns_filter columns keywords :
  find_similar_columns lower columns keywords
  = filter (fun col => keyword_loop lower keywords (lower col)) columns.
Proof. unfold find_similar_columns. now rewrite column_loop_filter. Qed.

Lemma filter_Sublist {A} (f : A -> bool) (l : list A) :
  Sublist (filter f l) l.
Proof.
  induction l as [|x l IH]; simpl; [constructor|].
  destruct (f x); now constructor.
Qed.

Lemma first_found_filter_Some (f : string -> bool) (l : list string) col :
  first_found (filter f l) = Some col
  <-> exists before after,
        l = before ++ col :: after /\ f col = true
        /\ forall c, In c before -> f c = false.
Proof.
  induction l as [|x l IH]; simpl.
  - split; [discriminate|].
    intros [before [after [H _]]]. now destruct before.
  - destruct (f x) eqn:Ex; simpl.
    + split.
      * intros [= ->]. exists [], l. repeat split; trivial.
        intros c [].
      * intros [before [after [H [Hc Hb]]]].
        destruct before as [|y before]; simpl in H; injection H as -> H.
        -- reflexivity.
        -- rewrite (Hb y) in Ex by now left. discriminate.
    + rewrite IH. split.
      * intros [before [after [-> [Hc Hb]]]].
        exists (x :: before), after. repeat split; trivial.
        intros c [<-|Hin]; auto.
      * intros [before [after [H [Hc Hb]]]].
        destruct before as [|y before]; simpl in H; injection H as -> H.
        -- congruence.
        -- exists before, after. repeat split; trivial.
           intros c Hin. apply Hb. now right.
Qed.

Lemma first_found_filter_None (f : string -> bool) (l : list string) :
  first_found (filter f l) = None <-> forall c, In c l -> f c = false.
Proof.
  induction l as [|x l IH]; simpl.
  - split; [intros _ c []|reflexivity].
  - destruct (f x) eqn:Ex; simpl.
    + split; [discriminate|].
      intros H. rewrite (H x) in Ex by now left. discriminate.
    + rewrite IH. split.
      * intros H c [<-|Hin]; auto.
      * intros H c Hin. apply H. now right.
Qed.

Lemma not_true_iff_not (b : bool) (P : Prop) :
  (b = true <-> P) -> (b = false <-> ~ P).
Proof. intros H. destruct b; intuition congruence. Qed.

(** The resolver, for any keywords: the first column, in column order,
    whose lower-cased name holds a lower-cased keyword. *)
Lemma resolve_Some columns keywords col :
  resolve lower columns keywords = Some col
  <-> exists before after,
        columns = before ++ col :: after
        /\ MatchesLowered lower keywords col
        /\ forall c, In c before -> ~ MatchesLowered lower keywords c.
Proof.
  unfold resolve. rewrite find_similar_columns_filter, first_found_filter_Some.
  split; intros [before [after [H [Hc Hb]]]]; exists before, after;
    repeat split; trivial.
  - now apply keyword_loop_true_iff.
  - intros c Hin.
    apply (not_true_iff_not _ _ (keyword_loop_true_iff keywords c)); auto.
  - now apply keyword_loop_true_iff.
  - intros c Hin.
    apply (not_true_iff_not _ _ (keyword_loop_true_iff keywords c)); auto.
Qed.

Lemma resolve_None columns keywords :
  resolve lower columns keywords = None
  <-> forall c, In c columns -> ~ MatchesLowered lower keywords c.
Proof.
  unfold resolve. rewrite find_similar_columns_filter, first_found_filter_None.
  split; intros H c Hin;
    apply (not_true_iff_not _ _ (keyword_loop_true_iff keywords c)); auto.
Qed.

Lemma Matches_lowered keywords col :
  (forall k, In k keywords -> lower k = k) ->
  MatchesLowered lower keywords col <-> Matches lower keywords col.
Proof.
  intros Hlow. unfold MatchesLowered, Matches.
  split; intros [k [Hin Hk]]; exists k; split; trivial.
  - now rewrite <- (Hlow k Hin).
  - now rewrite (Hlow k Hin).
Qed.

End ResolverFacts.

Lemma Sublist_In {A} (sub l : list A) x :
  Sublist sub l -> In x sub -> In x l.
Proof.
  induction 1; simpl; intros Hin; auto.
  destruct Hin; auto.
Qed.

Lemma Sublist_NoDup {A} (sub l : list A) :
  Sublist sub l -> NoDup l -> NoDup sub.
Proof.
  induction 1; intros Hnd; trivial.
  - inversion Hnd; auto.
  - inversion Hnd; subst. constructor; auto.
    intros Hin. eauto using Sublist_In.
Qed.

(** C2.  With lower-case keywords, as the keyword sets of a role are, the
    resolver returns for a role the first column in column order whose
    lower-cased name contains one of the role's keywords, and none when no
    column does.  The columns "Qual a sua escola?" and "Total de pontos"
    resolve to "Qual a sua escola?" for the school role (keyword "escola")
    and to "Total de pontos" for the total-score role (keywords "total",
    "pontos"); [school_statistics] picks the same two with its own keyword
    lists. *)
Theorem resolve_first_match (lower : string -> string)
  (columns keywords : list string) :
  (forall k, In k keywords -> lower k = k) ->
  (forall col,
      resolve lower columns keywords = Some col
      <-> exists before after,
            columns = before ++ col :: after
            /\ Matches lower keywords col
            /\ forall c, In c before -> ~ Matches lower keywords c)
  /\ (resolve lower columns keywords = None
      <-> forall c, In c columns -> ~ Matches lower keywords c)
  /\ resolve ascii_lower ["Qual a sua escola?"; "Total de pontos"] ["escola"]
     = Some "Qual a sua escola?"
  /\ resolve ascii_lower ["Qual a sua escola?"; "Total de pontos"]
       ["total"; "pontos"]
     = Some "Total de pontos"
  /\ school_statistics_columns ascii_lower
       ["Qual a sua escola?"; "Total de pontos"]
     = Automatic "Total de pontos" "Qual a sua escola?".
Proof.
  intros Hlow. repeat split; try reflexivity.
  - intros H. apply resolve_Some in H as [before [after [H [Hc Hb]]]].
    exists before, after. repeat split; trivial.
    + now apply Matches_lowered.
    + intros c Hin Hm. apply (Hb c Hin). now apply Matches_lowered.
  - intros [before [after [H [Hc Hb]]]]. apply resolve_Some.
    exists before, after. repeat split; trivial.
    + now apply Matches_lowered.
    + intros c Hin Hm. apply (Hb c Hin). now apply Matches_lowered.
  - intros H c Hin Hm. apply (proj1 (resolve_None _ _ _) H c Hin).
    now apply Matches_lowered.
  - intros H. apply resolve_None. intros c Hin Hm. apply (H c Hin).
    now apply Matches_lowered.
Qed.

Lemma resolve_first_match_witness :
  resolve ascii_lower ["Nota LP"; "Escola Municipal"; "Nome da ESCOLA"]
    ["escola"; "school"]
  = Some "Escola Municipal"
  <-> exists before after,
        ["Nota LP"; "Escola Municipal"; "Nome da ESCOLA"]
        = before ++ "Escola Municipal" :: after
        /\ Matches ascii_lower ["escola"; "school"] "Escola Municipal"
        /\ forall c, In c before -> ~ Matches ascii_lower ["escola"; "school"] c.
Proof.
  apply (resolve_first_match ascii_lower
           ["Nota LP"; "Escola Municipal"; "Nome da ESCOLA"]
           ["escola"; "school"]).
  simpl. intros k [<-|[<-|[]]]; reflexivity.
Defined.

(** C10.  On a frame whose column names are distinct, the list returned by
    [find_similar_columns] has no column name twice, however many keywords
    match a column, and keeps the matching columns in the order of the
    frame's columns: it is exactly the columns that match, filtered in
    place. *)
Theorem find_similar_columns_once_in_order (lower : string -> string)
  (columns keywords : list string) :
  NoDup columns ->
  NoDup (find_similar_columns lower columns keywords)
  /\ Sublist (find_similar_columns lower columns keywords) columns
  /\ (forall col,
        In col (find_similar_columns lower columns keywords)
        <-> In col columns /\ MatchesLowered lower keywords col).
Proof.
  intros Hnd. rewrite find_similar_columns_filter.
  split; [|split].
  - eapply Sublist_NoDup; [apply filter_Sublist|exact Hnd].
  - apply filter_Sublist.
  - intros col. rewrite filter_In. now rewrite keyword_loop_true_iff.
Qed.

Lemma find_similar_columns_once_in_order_witness :
  NoDup (find_similar_columns ascii_lower
           ["Nota LP"; "Total de Pontos"; "Escola"; "Pontos extra"]
           ["total"; "pontos"; "points"; "score"; "nota"])
  /\ find_similar_columns ascii_lower
       ["Nota LP"; "Total de Pontos"; "Escola"; "Pontos extra"]
       ["total"; "pontos"; "points"; "score"; "nota"]
     = ["Nota LP"; "Total de Pontos"; "Pontos extra"].
Proof.
  split; [|reflexivity].
  assert (Hnd : NoDup ["Nota LP"; "Total de Pontos"; "Escola"; "Pontos extra"]).
  { repeat constructor; simpl; intros H;
      repeat (destruct H as [H|H]; [discriminate H|]); exact H. }
  exact (proj1 (find_similar_columns_once_in_order ascii_lower _ _ Hnd)).
Defined.

(* ----------------------------------------------------------------- *)
(** ** Row masks and [dropna] *)

Lemma mask_within_refl m : mask_within m m.
Proof. induction m; constructor; auto. Qed.

Lemma mask_within_trans a b c :
  mask_within a b -> mask_within b c -> mask_within a c.
Proof.
  intros Hab; revert c; induction Hab; intros c' Hbc; [constructor|].
  inversion Hbc; subst. constructor; auto.
Qed.

Lemma and_mask_within_l a b : mask_within (and_mask a b) a.
Proof.
  revert b; induction a as [|x a IH]; intros [|y b]; simpl; try constructor.
  - now intros [H _]%andb_prop.
  - apply IH.
Qed.

Lemma and_mask_within_r a b : mask_within (and_mask a b) b.
Proof.
  revert b; induction a as [|x a IH]; intros [|y b]; simpl; try constructor.
  - now intros [_ H]%andb_prop.
  - apply IH.
Qed.

Lemma row_mask_within_index n cs : mask_within (row_mask n cs) (repeat true n).
Proof.
  induction cs as [|p cs IH]; simpl.
  - apply mask_within_refl.
  - eapply mask_within_trans; [apply and_mask_within_r|exact IH].
Qed.

Lemma row_mask_within_column n cs name c :
  In (name, c) cs -> mask_within (row_mask n cs) (notna_mask c).
Proof.
  induction cs as [|p cs IH]; simpl; [intros []|].
  intros [->|Hin].
  - apply and_mask_within_l.
  - eapply mask_within_trans; [apply and_mask_within_r|auto].
Qed.

Lemma mask_within_length mask bound :
  mask_within mask bound -> (List.length mask <= List.length bound)%nat.
Proof. induction 1; simpl; lia. Qed.

Lemma filter_id_length (mask : list bool) :
  (List.length (filter (fun b : bool => b) mask) <= List.length mask)%nat.
Proof. induction mask as [|[] m IH]; simpl; lia. Qed.

Lemma keep_present {A} (f : A -> bool) mask (l : list A) x :
  mask_within mask (map f l) -> In x (keep mask l) -> f x = true.
Proof.
  revert l; induction mask as [|b mask IH]; intros [|y l] Hm; simpl;
    try contradiction.
  inversion Hm as [|? ? ? ? Hb Hrest]; subst.
  destruct b; simpl; intros Hin.
  - destruct Hin as [<-|Hin]; [now apply Hb|now apply (IH l)].
  - now apply (IH l).
Qed.

Lemma keep_In {A} mask (l : list A) x : In x (keep mask l) -> In x l.
Proof.
  revert l; induction mask as [|b mask IH]; intros [|y l]; simpl;
    try contradiction.
  destruct b; simpl; intuition.
Qed.

Lemma keep_map {A B} (g : A -> B) mask (l : list A) :
  keep mask (map g l) = map g (keep mask l).
Proof.
  revert l; induction mask as [|b mask IH]; intros [|y l]; simpl; trivial.
  destruct b; simpl; now rewrite IH.
Qed.

Lemma keep_full_length {A} mask (l : list A) :
  List.length mask = List.length l ->
  List.length (keep mask l) = List.length (filter (fun b : bool => b) mask).
Proof.
  revert l; induction mask as [|b mask IH]; intros [|y l]; simpl;
    try discriminate; trivial.
  intros [= H]. destruct b; simpl; auto.
Qed.

Lemma column_cells_keep mask c :
  column_cells (keep_column mask c) = keep mask (column_cells c).
Proof. destruct c; simpl; [now rewrite keep_map|reflexivity]. Qed.

(** After [dropna] no column holds a missing value. *)
Lemma dropna_no_missing f : no_missing (cols (dropna f)).
Proof.
  intros name c v Hin Hv. unfold dropna in Hin; simpl in Hin.
  apply in_map_iff in Hin as [[name' c'] [[= <- <-] Hin]]. simpl in Hv.
  rewrite column_cells_keep in Hv.
  apply (keep_present (fun v => negb (isna v))) in Hv.
  - now apply negb_true_iff in Hv.
  - now apply (row_mask_within_column _ _ name').
Qed.

Lemma dropna_columns f : columns (dropna f) = columns f.
Proof.
  unfold columns, dropna; simpl. rewrite map_map; simpl. reflexivity.
Qed.

Lemma dropna_len f : (0 <= len (dropna f) <= len f)%Z.
Proof.
  unfold len, dropna; simpl.
  pose proof (filter_id_length (row_mask (index_len f) (cols f))).
  pose proof (mask_within_length _ _ (row_mask_within_index (index_len f) (cols f))).
  rewrite repeat_length in *. lia.
Qed.

(* ----------------------------------------------------------------- *)
(** ** Selecting and converting columns *)

Lemma labelled_absent name (cs : list (string * column)) :
  ~ In name (map fst cs) -> labelled name cs = [].
Proof.
  induction cs as [|[n c] cs IH]; simpl; [reflexivity|].
  intros H. destruct (String.eqb_spec n name) as [->|Hne].
  - exfalso. apply H. now left.
  - apply IH. intros Hin. apply H. now right.
Qed.

Lemma labelled_unique name (cs : list (string * column)) :
  NoDup (map fst cs) -> In name (map fst cs) ->
  exists c, labelled name cs = [(name, c)] /\ In (name, c) cs.
Proof.
  induction cs as [|[n c] cs IH]; simpl; [intros _ []|].
  intros Hnd Hin. inversion Hnd as [|? ? Hnotin Hnd']; subst.
  destruct (String.eqb_spec n name) as [->|Hne].
  - exists c. rewrite (labelled_absent name cs Hnotin). split; auto.
  - destruct Hin as [Heq|Hin]; [contradiction|].
    destruct (IH Hnd' Hin) as [c' [H1 H2]]. exists c'. split; auto.
Qed.

Lemma getitem_list_ok (cs : list (string * column)) names :
  NoDup (map fst cs) -> incl names (map fst cs) ->
  exists selected,
    getitem_list cs names = Ok selected
    /\ map fst selected = names
    /\ incl selected cs.
Proof.
  intros Hnd. induction names as [|name names IH]; intros Hincl; simpl.
  - exists []. repeat split. intros p [].
  - destruct (labelled_unique name cs Hnd) as [c [Hl Hin]];
      [apply Hincl; now left|].
    destruct IH as [rest [Hrest [Hfst Hsub]]];
      [intros n Hn; apply Hincl; now right|].
    rewrite Hl, Hrest. simpl. exists ((name, c) :: rest).
    repeat split; simpl; [now rewrite Hfst|].
    intros p [<-|Hp]; auto.
Qed.

Section CleaningFacts.

Variable parse_float : string -> option float.

Lemma coerce_numeric vals :
  map (coerce_cell parse_float) (map CNum vals) = vals.
Proof. rewrite map_map. simpl. apply map_id. Qed.

Lemma to_numeric_coerce_numeric vals :
  to_numeric_coerce parse_float (NumCol vals) = NumCol vals.
Proof. unfold to_numeric_coerce; simpl. now rewrite coerce_numeric. Qed.

Lemma to_numeric_coerce_idem c :
  to_numeric_coerce parse_float (to_numeric_coerce parse_float c)
  = to_numeric_coerce parse_float c.
Proof. unfold to_numeric_coerce at 2. apply to_numeric_coerce_numeric. Qed.

(** [errors='coerce']: a text that is not a number becomes NaN. *)
Lemma coerce_unparsable s :
  parse_float s = None -> coerce_cell parse_float (CStr s) = NaN.
Proof. intros H; simpl. now rewrite H. Qed.

Lemma converted_labels metrics cs :
  map fst (converted parse_float metrics cs) = map fst cs.
Proof.
  unfold converted. rewrite map_map. apply map_ext.
  intros p. now destruct (existsb _ metrics).
Qed.

Lemma convert_column_ok cs col :
  NoDup (map fst cs) -> In col (map fst cs) ->
  convert_column parse_float cs col = Ok (converted parse_float [col] cs).
Proof.
  intros Hnd Hin. unfold convert_column, getitem.
  destruct (labelled_unique col cs Hnd Hin) as [c [Hl Hc]].
  rewrite Hl. simpl.
  assert (Hone : forall p, In p cs -> fst p = col -> snd p = c).
  { intros [n c'] Hp Hn; simpl in *; subst n.
    assert (In (col, c') (labelled col cs)) as Hl'
      by (apply filter_In; split; [exact Hp|apply String.eqb_refl]).
    rewrite Hl in Hl'. destruct Hl' as [[=]|[]]. congruence. }
  destruct c as [vals|vals]; simpl; f_equal; unfold converted, setitem.
  - transitivity (map (fun p : string * column => p) cs);
      [symmetry; apply map_id|].
    apply map_ext_in. intros p Hp. simpl. rewrite orb_false_r.
    destruct (String.eqb_spec (fst p) col) as [He|]; [|reflexivity].
    rewrite (Hone p Hp He), to_numeric_coerce_numeric.
    rewrite <- (Hone p Hp He). now destruct p.
  - apply map_ext_in. intros p Hp. simpl. rewrite orb_false_r.
    destruct (String.eqb_spec (fst p) col) as [He|]; [|reflexivity].
    now rewrite (Hone p Hp He).
Qed.

Lemma converted_cons col metrics cs :
  converted parse_float metrics (converted parse_float [col] cs)
  = converted parse_float (col :: metrics) cs.
Proof.
  unfold converted. rewrite map_map. apply map_ext. intros [n c]; simpl.
  rewrite orb_false_r.
  destruct (String.eqb n col); simpl.
  - destruct (existsb (String.eqb n) metrics); simpl; trivial.
    now rewrite to_numeric_coerce_idem.
  - reflexivity.
Qed.

Lemma convert_loop_ok metrics cs :
  NoDup (map fst cs) -> incl metrics (map fst cs) ->
  convert_loop parse_float metrics cs
  = Ok (converted parse_float metrics cs).
Proof.
  revert cs. induction metrics as [|col metrics IH]; intros cs Hnd Hincl.
  - simpl. f_equal. unfold converted. simpl. symmetry. apply map_id.
  - simpl. rewrite convert_column_ok; trivial; [|apply Hincl; now left].
    simpl. rewrite IH.
    + now rewrite converted_cons.
    + now rewrite converted_labels.
    + rewrite converted_labels. intros n Hn. apply Hincl. now right.
Qed.

(** On distinct column names the preparation returns: it selects the
    grouping column and the metrics, in that order, and coerces every
    metric column. *)
Lemma prepare_ok data group metrics :
  NoDup (columns data) ->
  NoDup (group :: metrics) ->
  incl (group :: metrics) (columns data) ->
  exists selected,
    getitem_list (cols data) (group :: metrics) = Ok selected
    /\ map fst selected = group :: metrics
    /\ incl selected (cols data)
    /\ prepare parse_float data group metrics
       = Ok {| index_len := index_len data;
               cols := converted parse_float metrics selected |}.
Proof.
  intros Hnd Hsel Hincl.
  destruct (getitem_list_ok (cols data) (group :: metrics) Hnd Hincl)
    as [selected [Hget [Hfst Hsub]]].
  exists selected. repeat split; trivial.
  unfold prepare. rewrite Hget. simpl.
  rewrite convert_loop_ok; [reflexivity| |].
  - now rewrite Hfst.
  - rewrite Hfst. intros n Hn. now right.
Qed.

Lemma converted_numeric metrics cs name c :
  In name metrics -> In (name, c) (converted parse_float metrics cs) ->
  exists vals, c = NumCol vals.
Proof.
  intros Hm Hin. unfold converted in Hin.
  apply in_map_iff in Hin as [[n c'] [Heq Hin]]. simpl in Heq.
  destruct (existsb (String.eqb n) metrics) eqn:E.
  - injection Heq as <- <-. eexists. reflexivity.
  - injection Heq as -> ->.
    assert (existsb (String.eqb name) metrics = true) as E'
      by (apply existsb_exists; exists name; split;
          [exact Hm|apply String.eqb_refl]).
    congruence.
Qed.

Lemma keep_column_numeric mask c vals :
  keep_column mask c = NumCol vals -> exists vals', c = NumCol vals'.
Proof. destruct c; simpl; [eauto|discriminate]. Qed.

(** The counts the preparation block prints. *)
Lemma clean_reports data group metrics c :
  clean parse_float data group metrics = Ok c ->
  initial_count c = len data
  /\ final_count c = len (data_clean c)
  /\ (final_count c + removed_count c = initial_count c)%Z
  /\ (0 <= removed_count c)%Z
  /\ (0 <= final_count c)%Z.
Proof.
  unfold clean, prepare. intros H.
  destruct (getitem_list (cols data) (group :: metrics)); [|discriminate].
  simpl in H.
  destruct (convert_loop parse_float metrics a); [|discriminate].
  simpl in H. injection H as <-. simpl.
  pose proof (dropna_len {| index_len := index_len data; cols := a0 |}) as Hl.
  unfold len in *; simpl in *. repeat split; lia.
Qed.

End CleaningFacts.

(* ----------------------------------------------------------------- *)
(** ** The cleaned frame *)

(** C4, as amended.  When the grouping column and the metric columns are
    distinct columns of a frame with distinct column names, the cleaning
    returns a frame made of exactly these columns, in that order, in which
    no value is missing and every metric column is numeric and holds
    numbers only.  Infinities are numbers here: nothing removes them. *)
Theorem cleaned_frame_has_no_missing (parse_float : string -> option float)
  (data : frame) (group : string) (metrics : list string) :
  NoDup (columns data) ->
  NoDup (group :: metrics) ->
  incl (group :: metrics) (columns data) ->
  exists c,
    clean parse_float data group metrics = Ok c
    /\ columns (data_clean c) = group :: metrics
    /\ no_missing (cols (data_clean c))
    /\ numeric_columns metrics (cols (data_clean c)).
Proof.
  intros Hnd Hsel Hincl.
  destruct (prepare_ok parse_float data group metrics Hnd Hsel Hincl)
    as [selected [Hget [Hfst [Hsub Hprep]]]].
  unfold clean. rewrite Hprep. cbn [bind].
  eexists. split; [reflexivity|]. cbn [data_clean].
  split; [|split].
  - rewrite dropna_columns. unfold columns; cbn [cols].
    now rewrite converted_labels.
  - apply dropna_no_missing.
  - intros name c Hname Hin.
    pose proof (fun v => dropna_no_missing _ name c v Hin) as Hpresent.
    unfold dropna in Hin; cbn [cols] in Hin.
    apply in_map_iff in Hin as [[n c'] [Heq Hin]].
    cbn [fst snd] in Heq. injection Heq as <- <-.
    destruct (converted_numeric parse_float metrics selected n c' Hname Hin)
      as [vals ->].
    cbn [keep_column] in *. eexists. split; [reflexivity|].
    intros v Hv. apply (Hpresent (CNum v)). cbn [column_cells].
    now apply in_map.
Qed.

Lemma cleaned_frame_has_no_missing_witness :
  exists c,
    clean (fun _ => None)
      {| index_len := 3;
         cols := [("Escola", ObjCol [CStr "A"; CStr "B"; CNum NaN]);
                  ("Pontos", ObjCol [CStr "abc"; CNum (Fin 7); CNum (Fin 5)])] |}
      "Escola" ["Pontos"] = Ok c
    /\ columns (data_clean c) = ["Escola"; "Pontos"]
    /\ no_missing (cols (data_clean c))
    /\ numeric_columns ["Pontos"] (cols (data_clean c)).
Proof.
  apply (cleaned_frame_has_no_missing (fun _ => None)
           {| index_len := 3;
              cols := [("Escola", ObjCol [CStr "A"; CStr "B"; CNum NaN]);
                       ("Pontos",
                        ObjCol [CStr "abc"; CNum (Fin 7); CNum (Fin 5)])] |}
           "Escola" ["Pontos"]).
  - simpl. repeat constructor; simpl; intuition discriminate.
  - repeat constructor; simpl; intuition discriminate.
  - intros n [<-|[<-|[]]]; simpl; auto.
Defined.

(** C4 as stated fails: a numeric column that holds an infinity keeps it
    through the cleaning, so not every remaining metric value is finite. *)
Lemma cleaned_frame_keeps_infinity :
  ~ (forall (parse_float : string -> option float) data group metrics c,
        clean parse_float data group metrics = Ok c ->
        no_missing (cols (data_clean c))
        /\ finite_columns metrics (cols (data_clean c))).
Proof.
  intros H.
  specialize (H (fun _ => None)
                {| index_len := 2;
                   cols := [("Escola", ObjCol [CStr "A"; CStr "A"]);
                            ("Pontos", NumCol [PInf; Fin 1])] |}
                "Escola" ["Pontos"] _ eq_refl).
  destruct H as [_ H].
  destruct (H "Pontos" (NumCol [PInf; Fin 1]) (CNum PInf)) as [x Hx].
  - now left.
  - simpl. right. now left.
  - simpl. now left.
  - discriminate.
Qed.

(** C3 at a frame the application can load: the one column "Pontos por
    escola" holds a points keyword and a school keyword, so
    [school_statistics] takes it for both roles; the selection then has two
    columns of that name, [data_analysis[col]] is a DataFrame, and reading
    its [dtype] raises [AttributeError] at line 121, before the [try]. *)
Theorem clean_raises_on_shared_column (parse_float : string -> option float) :
  let data :=
    {| index_len := 2;
       cols := [("Pontos por escola", ObjCol [CStr "10"; CStr "abc"])] |} in
  school_statistics_columns ascii_lower (columns data)
  = Automatic "Pontos por escola" "Pontos por escola"
  /\ school_statistics_clean parse_float data
       "Pontos por escola" "Pontos por escola"
     = Raise AttributeError.
Proof. split; reflexivity. Qed.

(* ----------------------------------------------------------------- *)
(** ** Putting a coefficient into words *)

Lemma Rleb_true_iff a b : Rleb a b = true <-> (a <= b)%R.
Proof. unfold Rleb. destruct (Rle_dec a b); intuition discriminate. Qed.

Lemma Rleb_false_iff a b : Rleb a b = false <-> (b < a)%R.
Proof.
  unfold Rleb. destruct (Rle_dec a b); split; intros; try discriminate;
    try reflexivity; lra.
Qed.

Lemma Rltb_true_iff a b : Rltb a b = true <-> (a < b)%R.
Proof. unfold Rltb. destruct (Rlt_dec a b); intuition discriminate. Qed.

Lemma Rltb_false_iff a b : Rltb a b = false <-> (b <= a)%R.
Proof.
  unfold Rltb. destruct (Rlt_dec a b); split; intros; try discriminate;
    try reflexivity; lra.
Qed.

(** Decide every comparison of reals in the goal, closing the branches that
    contradict the hypotheses. *)
Ltac decide_reals :=
  repeat match goal with
    | |- context [Rleb ?a ?b] =>
        let E := fresh "E" in
        destruct (Rleb a b) eqn:E;
        [apply Rleb_true_iff in E | apply Rleb_false_iff in E]
    | |- context [Rltb ?a ?b] =>
        let E := fresh "E" in
        destruct (Rltb a b) eqn:E;
        [apply Rltb_true_iff in E | apply Rltb_false_iff in E]
    end.

(** Rounding leaves an integer alone. *)
Lemma Rfloor_IZR n : Rfloor (IZR n) = n.
Proof.
  unfold Rfloor.
  rewrite <- (tech_up (IZR n) (n + 1)); [lia| |]; rewrite plus_IZR; lra.
Qed.

Lemma rint_IZR n : rint (IZR n) = n.
Proof.
  unfold rint. rewrite Rfloor_IZR.
  replace (IZR n - IZR n)%R with 0%R by lra.
  destruct (Rltb 0 (1 / 2)) eqn:E; [reflexivity|].
  apply Rltb_false_iff in E. lra.
Qed.

Lemma round_integer (n : Z) (decimals : nat) :
  round (Fin (IZR n)) decimals = Fin (IZR n).
Proof.
  simpl. f_equal. unfold round_real.
  assert (H10 : (10 ^ decimals)%R = IZR (10 ^ Z.of_nat decimals)).
  { rewrite <- pow_IZR. reflexivity. }
  rewrite H10, <- mult_IZR, rint_IZR, mult_IZR.
  field. rewrite <- H10. apply pow_nonzero. lra.
Qed.

Lemma pearson_scenario : pearson [10; 20; 30]%R [5; 6; 7]%R = Fin 1.
Proof.
  unfold pearson.
  cbn [List.length Nat.eqb map combine Rsum fold_right fst snd INR].
  match goal with
  | |- context [sqrt ?e] => replace e with (20 * 20)%R by lra
  end.
  rewrite sqrt_square by lra.
  unfold Reqb. destruct (Req_dec_T 20 0) as [H|_]; [lra|].
  f_equal. unfold clip. decide_reals; lra.
Qed.

(** C7.  For every real [r] (in particular in [-1, 1]),
    [classificar_forca_correlacao] answers "Forte" (strong) exactly when
    |r| >= 0.7, "Moderada" (moderate) exactly when 0.5 <= |r| < 0.7,
    "Fraca" (weak) exactly when 0.3 <= |r| < 0.5 and "Muito Fraca"
    (negligible) exactly when |r| < 0.3.  School sizes 10, 20, 30 with
    means 5, 6, 7 have Pearson coefficient 1, which is classified strong
    and read as a positive correlation. *)
Theorem classificar_forca_correlacao_thresholds :
  (forall r : R,
      (classificar_forca_correlacao (Fin r) = "Forte"
       <-> 7 / 10 <= Rabs r)%R
      /\ (classificar_forca_correlacao (Fin r) = "Moderada"
          <-> 5 / 10 <= Rabs r < 7 / 10)%R
      /\ (classificar_forca_correlacao (Fin r) = "Fraca"
          <-> 3 / 10 <= Rabs r < 5 / 10)%R
      /\ (classificar_forca_correlacao (Fin r) = "Muito Fraca"
          <-> Rabs r < 3 / 10)%R)
  /\ pearson [10; 20; 30]%R [5; 6; 7]%R = Fin 1
  /\ correlacao [(10%Z, 5%R); (20%Z, 6%R); (30%Z, 7%R)] = Fin 1
  /\ classificar_forca_correlacao (Fin 1) = "Forte"
  /\ interpretar_correlacao_simples (Fin 1) = "Correlação positiva forte"
  /\ direction_of (Fin 1) = Positive.
Proof.
  split.
  - intros r. unfold classificar_forca_correlacao; simpl.
    decide_reals; repeat split; intros; try discriminate; try reflexivity;
      try lra.
  - repeat split.
    + apply pearson_scenario.
    + unfold correlacao. simpl map. rewrite pearson_scenario.
      apply round_integer.
    + unfold classificar_forca_correlacao; simpl. decide_reals; trivial;
        unfold Rabs in *; destruct (Rcase_abs 1); lra.
    + unfold interpretar_correlacao_simples; simpl. decide_reals; trivial; lra.
    + unfold direction_of, interpretar_correlacao_simples; simpl.
      decide_reals; try lra. reflexivity.
Qed.

(** C8.  For every real [r] strictly between -0.3 and 0.3 both
    interpreters report a very weak or null correlation, whatever the sign
    of [r]; outside that band they report a positive correlation when
    [r > 0] and a negative one otherwise. *)
Theorem interpretar_correlacao_band (r : R) :
  ((- (3 / 10) < r < 3 / 10)%R ->
     interpretar_correlacao_simples (Fin r) = "Correlação muito fraca ou nula"
     /\ interpretar_correlacao_detalhada (Fin r)
        = "Correlação muito fraca ou nula: praticamente não há relação entre tamanho da escola e desempenho"
     /\ direction_of (Fin r) = NoDirection)
  /\ ((r <= - (3 / 10) \/ 3 / 10 <= r)%R ->
        direction_of (Fin r) = (if Rltb 0 r then Positive else Negative)
        /\ contains (if Rltb 0 r then "positiva" else "negativa")
             (interpretar_correlacao_detalhada (Fin r)) = true
        /\ contains (if Rltb 0 r then "positiva" else "negativa")
             (interpretar_correlacao_simples (Fin r)) = true).
Proof.
  unfold direction_of, interpretar_correlacao_simples,
    interpretar_correlacao_detalhada; simpl.
  split; intros H; decide_reals; try lra; repeat split; reflexivity.
Qed.

Lemma interpretar_correlacao_band_witness :
  interpretar_correlacao_simples (Fin (- (1 / 10)))
  = "Correlação muito fraca ou nula"
  /\ direction_of (Fin (- (4 / 10))) = Negative.
Proof.
  split.
  - apply (proj1 (interpretar_correlacao_band (- (1 / 10)))). lra.
  - destruct (proj2 (interpretar_correlacao_band (- (4 / 10)))) as [H _];
      [left; lra|].
    rewrite H. destruct (Rltb 0 (- (4 / 10))) eqn:E; [|reflexivity].
    apply Rltb_true_iff in E. lra.
Defined.

(* ----------------------------------------------------------------- *)
(** ** Pearson correlation *)

Section PearsonFacts.

Local Open Scope R_scope.

Variables a b : R.




Lemma ssqdm_nonneg xs m :
  0 <= Rsum (map (fun x => (x - m) * (x - m)) xs).
Proof.
  induction xs as [|x xs IH]; [simpl; lra|].
  cbn [map Rsum fold_right]. unfold Rsum in IH.
  pose proof (Rle_0_sqr (x - m)) as Hsq. unfold Rsqr in Hsq. lra.
Qed.


End PearsonFacts.

(* ----------------------------------------------------------------- *)
(** ** Rounding keeps the order *)

Lemma Rfloor_bounds x : (IZR (Rfloor x) <= x < IZR (Rfloor x) + 1)%R.
Proof.
  unfold Rfloor. rewrite minus_IZR.
  destruct (archimed x) as [H1 H2]. lra.
Qed.

Lemma rint_near x : (IZR (rint x) - 1 / 2 <= x <= IZR (rint x) + 1 / 2)%R.
Proof.
  unfold rint. pose proof (Rfloor_bounds x) as Hf.
  decide_reals; try lra.
  - rewrite plus_IZR. lra.
  - destruct (Z.even (Rfloor x)); [lra|rewrite plus_IZR; lra].
Qed.

Lemma rint_mono x y : (x <= y)%R -> (rint x <= rint y)%Z.
Proof.
  intros Hxy.
  destruct (Z_le_gt_dec (rint x) (rint y)) as [H|H]; [exact H|exfalso].
  assert (Hz : (rint y + 1 <= rint x)%Z) by lia.
  apply IZR_le in Hz. rewrite plus_IZR in Hz.
  pose proof (rint_near x) as Hx. pose proof (rint_near y) as Hy.
  assert (Heq : x = y) by lra.
  subst y. lia.
Qed.

Lemma pow10_pos d : (0 < 10 ^ d)%R.
Proof. apply pow_lt. lra. Qed.

Lemma round_real_mono x y d :
  (x <= y)%R -> (round_real x d <= round_real y d)%R.
Proof.
  intros Hxy. unfold round_real.
  pose proof (pow10_pos d) as Hp.
  assert (Hm : (x * 10 ^ d <= y * 10 ^ d)%R) by nra.
  apply rint_mono, IZR_le in Hm.
  unfold Rdiv. apply Rmult_le_compat_r; [|exact Hm].
  left. now apply Rinv_0_lt_compat.
Qed.

(* ----------------------------------------------------------------- *)
(** ** Sorting and the statistics of one group *)

Lemma insert_by_perm {A} (leb : A -> A -> bool) x l :
  Permutation (insert_by leb x l) (x :: l).
Proof.
  induction l as [|y l IH]; simpl; [reflexivity|].
  destruct (leb x y); [reflexivity|].
  rewrite IH. apply perm_swap.
Qed.

Lemma sort_by_perm {A} (leb : A -> A -> bool) l :
  Permutation (sort_by leb l) l.
Proof.
  induction l as [|x l IH]; simpl; [reflexivity|].
  rewrite insert_by_perm. now constructor.
Qed.

Lemma sort_by_In {A} (leb : A -> A -> bool) l x :
  In x (sort_by leb l) <-> In x l.
Proof.
  split; apply Permutation_in;
    [apply sort_by_perm|symmetry; apply sort_by_perm].
Qed.


Section Bounds.

Local Open Scope R_scope.



Lemma Rsum_bounds l lo hi :
  (forall y, In y l -> lo <= y <= hi) ->
  INR (List.length l) * lo <= Rsum l <= INR (List.length l) * hi.
Proof.
  induction l as [|x l IH]; intros H.
  - simpl. lra.
  - cbn [List.length Rsum fold_right]. rewrite S_INR.
    destruct (H x (or_introl eq_refl)) as [H1 H2].
    destruct IH as [H3 H4]; [intros y Hy; apply H; now right|].
    unfold Rsum in *. lra.
Qed.



End Bounds.

(* ----------------------------------------------------------------- *)
(** ** The rows of the statistics table *)

Lemma Reqb_refl x : Reqb x x = true.
Proof. unfold Reqb. destruct (Req_dec_T x x); congruence. Qed.

Lemma cell_eqb_refl c : cell_eqb c c = true.
Proof.
  destruct c as [[x| | |]|s]; simpl; trivial;
    [apply Reqb_refl|apply String.eqb_refl].
Qed.

Lemma unique_In l x : In x (unique l) -> In x l.
Proof.
  induction l as [|y l IH]; simpl; [tauto|].
  intros [H|H]; [now left|right].
  apply filter_In in H. apply IH, H.
Qed.

Lemma group_keys_In rows key :
  In key (group_keys rows) -> In key (map fst rows).
Proof.
  unfold group_keys. rewrite sort_by_In. intros H.
  apply unique_In, filter_In in H. apply H.
Qed.


Lemma group_values_nonempty rows key :
  In key (map fst rows) -> group_values rows key <> [].
Proof.
  intros H. apply in_map_iff in H as [r [<- Hr]].
  unfold group_values.
  assert (Hin : In (snd r) (map snd (filter (fun r' => cell_eqb (fst r') (fst r)) rows))).
  { apply in_map, filter_In. split; [exact Hr|apply cell_eqb_refl]. }
  intros E. rewrite E in Hin. exact Hin.
Qed.

(* ----------------------------------------------------------------- *)
(** ** The scenario of two schools *)

(** Replace every comparison of two given reals by its value. *)
Ltac eval_reals :=
  repeat match goal with
    | |- context [Rleb ?a ?b] =>
        first [ rewrite (proj2 (Rleb_true_iff a b)) by lra
              | rewrite (proj2 (Rleb_false_iff a b)) by lra ]
    | |- context [Rltb ?a ?b] =>
        first [ rewrite (proj2 (Rltb_true_iff a b)) by lra
              | rewrite (proj2 (Rltb_false_iff a b)) by lra ]
    end.

Lemma round_real_exact x d n :
  (x * 10 ^ d = IZR n)%R -> round_real x d = x.
Proof.
  intros H. unfold round_real. rewrite H, rint_IZR, <- H.
  field. apply Rgt_not_eq, pow10_pos.
Qed.

Lemma round_exact x d n :
  (x * 10 ^ d = IZR n)%R -> round (Fin x) d = Fin x.
Proof. intros H. cbn [round]. f_equal. now apply (round_real_exact x d n). Qed.

Lemma agg_scenario_A nf :
  agg nf (CStr "A") [Fin 10; Fin 20; Fin 30]
  = {| Escola := CStr "A"; Media := Fin 20; Mediana := Fin 20;
       Minimo := Fin 10; Maximo := Fin 30; Desvio_Padrao := Fin 10;
       Quantidade_Alunos := 3 |}.
Proof.
  unfold agg. cbn [present filter isnan negb finite_values List.length].
  f_equal.
  - unfold mean. cbn [Rsum fold_right List.length INR]. f_equal. lra.
  - unfold median, sort_by. cbn [fold_right insert_by]. eval_reals.
    cbn [insert_by]. eval_reals. cbn [insert_by]. eval_reals.
    reflexivity.
  - unfold minimum. cbn [fold_right]. f_equal.
    unfold Rmin. repeat (destruct (Rle_dec _ _)); lra.
  - unfold maximum. cbn [fold_right]. f_equal.
    unfold Rmax. repeat (destruct (Rle_dec _ _)); lra.
  - unfold std. cbn [List.length Nat.leb map Rsum fold_right INR]. f_equal.
    match goal with
    | |- sqrt ?e = _ => replace e with (10 * 10)%R by lra
    end.
    apply sqrt_square. lra.
Qed.

Lemma agg_scenario_B nf :
  agg nf (CStr "B") [Fin 5]
  = {| Escola := CStr "B"; Media := Fin 5; Mediana := Fin 5;
       Minimo := Fin 5; Maximo := Fin 5; Desvio_Padrao := NaN;
       Quantidade_Alunos := 1 |}.
Proof.
  unfold agg. cbn [present filter isnan negb finite_values List.length].
  f_equal.
  unfold mean. cbn [Rsum fold_right List.length INR]. f_equal. lra.
Qed.

Lemma table_scenario nf :
  estatisticas_escolas_reset nf
    [(CStr "A", Fin 10); (CStr "B", Fin 5);
     (CStr "A", Fin 20); (CStr "A", Fin 30)]
  = [{| Escola := CStr "A"; Media := Fin 20; Mediana := Fin 20;
        Minimo := Fin 10; Maximo := Fin 30; Desvio_Padrao := Fin 10;
        Quantidade_Alunos := 3 |};
     {| Escola := CStr "B"; Media := Fin 5; Mediana := Fin 5;
        Minimo := Fin 5; Maximo := Fin 5; Desvio_Padrao := NaN;
        Quantidade_Alunos := 1 |}].
Proof.
  unfold estatisticas_escolas_reset.
  change (group_keys _) with [CStr "A"; CStr "B"].
  cbn [map].
  change (group_values _ (CStr "A")) with [Fin 10; Fin 20; Fin 30].
  change (group_values _ (CStr "B")) with [Fin 5].
  rewrite agg_scenario_A, agg_scenario_B.
  unfold round_linha.
  cbn [Escola Media Mediana Minimo Maximo Desvio_Padrao Quantidade_Alunos].
  rewrite (round_exact 20 2 2000), (round_exact 10 2 1000),
    (round_exact 30 2 3000), (round_exact 5 2 500) by (simpl; lra).
  cbn [round]. unfold sort_by. cbn [fold_right insert_by Media float_geb float_leb].
  eval_reals. reflexivity.
Qed.


(* ----------------------------------------------------------------- *)
(** ** What is shown and what is exported *)

Lemma filter_length_le {A} (f : A -> bool) l :
  (List.length (filter f l) <= List.length l)%nat.
Proof. induction l as [|x l IH]; simpl; [lia|]. destruct (f x); simpl; lia. Qed.

Lemma filter_all_iff {A} (f : A -> bool) l :
  filter f l = l <-> forall x, In x l -> f x = true.
Proof.
  induction l as [|x l IH]; simpl.
  - split; [intros _ y []|reflexivity].
  - destruct (f x) eqn:E.
    + split.
      * intros [= H] y [<-|Hy]; [exact E|]. now apply IH.
      * intros H. f_equal. apply IH. intros y Hy. apply H. now right.
    + split.
      * intros H. pose proof (filter_length_le f l) as Hl.
        rewrite H in Hl. simpl in Hl. lia.
      * intros H. rewrite (H x) in E by now left. discriminate.
Qed.

Lemma school_statistics_scenario parse_float nf min_alunos escolas_filtradas :
  school_statistics parse_float nf scenario_data "Escola" "Pontos"
    min_alunos escolas_filtradas
  = Ok (Shown
          (displayed "Escola"
             (estatisticas_escolas_reset nf
                [(CStr "A", Fin 10); (CStr "B", Fin 5);
                 (CStr "A", Fin 20); (CStr "A", Fin 30)])
             min_alunos escolas_filtradas)
          (exported "Escola"
             (estatisticas_escolas_reset nf
                [(CStr "A", Fin 10); (CStr "B", Fin 5);
                 (CStr "A", Fin 20); (CStr "A", Fin 30)])
             min_alunos escolas_filtradas)).
Proof. reflexivity. Qed.

(** C1 as stated fails: with the minimum count set to 2, the page shows
    school A only, while the CSV holds schools A and B. *)
Lemma export_differs_from_display :
  ~ (forall parse_float nf data coluna_escola coluna_total_pontos
            min_alunos escolas_filtradas shown csv,
        school_statistics parse_float nf data coluna_escola
          coluna_total_pontos min_alunos escolas_filtradas
        = Ok (Shown shown csv) ->
        csv = shown).
Proof.
  intros H.
  specialize (H (fun _ => None)
                (fun _ =>
                   {| Escola := CStr ""; Media := NaN; Mediana := NaN;
                      Minimo := NaN; Maximo := NaN; Desvio_Padrao := NaN;
                      Quantidade_Alunos := 0%Z |})
                scenario_data "Escola" "Pontos" 2%Z [] _ _
                (school_statistics_scenario _ _ _ _)).
  apply (f_equal body) in H. unfold exported, displayed in H.
  cbn [body] in H. rewrite table_scenario in H.
  discriminate H.
Qed.

(** C1, as amended.  When [school_statistics] reaches its table, the CSV
    export is the whole statistics table and does not depend on the two
    filters; the table on the page has the same column headers and holds
    the exported rows that pass the filters, in the same order.  The two
    are equal exactly when every row passes the filters. *)
Theorem export_is_unfiltered_table (parse_float : string -> option float)
  (nf : list float -> linha) (data : frame)
  (coluna_escola coluna_total_pontos : string)
  (min_alunos : Z) (escolas_filtradas : list cell) (shown csv : table) :
  school_statistics parse_float nf data coluna_escola coluna_total_pontos
    min_alunos escolas_filtradas
  = Ok (Shown shown csv) ->
  header shown = header csv
  /\ header csv = stats_header coluna_escola
  /\ body shown = filter (passes min_alunos escolas_filtradas) (body csv)
  /\ (forall min_alunos' escolas_filtradas',
        exists shown',
          school_statistics parse_float nf data coluna_escola
            coluna_total_pontos min_alunos' escolas_filtradas'
          = Ok (Shown shown' csv))
  /\ (shown = csv
      <-> forall l, In l (body csv) ->
                    passes min_alunos escolas_filtradas l = true).
Proof.
  unfold school_statistics.
  destruct (school_statistics_clean parse_float data coluna_escola
              coluna_total_pontos) as [c|e]; [|discriminate].
  cbn [bind]. destruct (final_count c =? 0)%Z; [discriminate|].
  destruct (getitem (cols (data_clean c)) coluna_escola) as [[gc|?]|e];
    cbn [bind]; try discriminate.
  destruct (List.length _ =? 0)%nat; [discriminate|].
  destruct (getitem (cols (data_clean c)) coluna_total_pontos)
    as [[[vals|?]|?]|e]; try discriminate.
  intros [= <- <-]. unfold displayed, exported, estatisticas_filtradas.
  cbn [header body].
  repeat split; trivial.
  - intros min' sel'. eexists. reflexivity.
  - intros [= H]. now apply filter_all_iff.
  - intros H. f_equal. now apply filter_all_iff.
Qed.

Lemma export_is_unfiltered_table_witness :
  exists shown csv,
    school_statistics (fun _ => None)
      (fun _ =>
         {| Escola := CStr ""; Media := NaN; Mediana := NaN; Minimo := NaN;
            Maximo := NaN; Desvio_Padrao := NaN; Quantidade_Alunos := 0 |})
      scenario_data "Escola" "Pontos" 2%Z [] = Ok (Shown shown csv)
    /\ body shown = filter (passes 2%Z []) (body csv)
    /\ List.length (body csv) = 2%nat.
Proof.
  do 2 eexists. split; [apply school_statistics_scenario|]. split.
  - eapply (export_is_unfiltered_table (fun _ => None)
              (fun _ =>
                 {| Escola := CStr ""; Media := NaN; Mediana := NaN;
                    Minimo := NaN; Maximo := NaN; Desvio_Padrao := NaN;
                    Quantidade_Alunos := 0%Z |})
              scenario_data "Escola" "Pontos" 2%Z []).
    apply school_statistics_scenario.
  - unfold exported. cbn [body]. rewrite table_scenario. reflexivity.
Defined.

(* ================================================================= *)
(** * Part III: further properties of the code *)
(* ================================================================= *)

(* ----------------------------------------------------------------- *)
(** ** The three functions that word a coefficient *)

(** For every real coefficient the strength word and the sentence agree:
    "Forte" goes with a sentence ending in "forte", "Moderada" with
    "moderada", "Fraca" with "fraca" and "Muito Fraca" with "muito fraca
    ou nula". *)
Theorem forca_agrees_with_interpretacao (r : R) :
  (classificar_forca_correlacao (Fin r) = "Forte"
   <-> interpretar_correlacao_simples (Fin r) = "Correlação positiva forte"
       \/ interpretar_correlacao_simples (Fin r) = "Correlação negativa forte")
  /\ (classificar_forca_correlacao (Fin r) = "Moderada"
      <-> interpretar_correlacao_simples (Fin r)
          = "Correlação positiva moderada"
          \/ interpretar_correlacao_simples (Fin r)
             = "Correlação negativa moderada")
  /\ (classificar_forca_correlacao (Fin r) = "Fraca"
      <-> interpretar_correlacao_simples (Fin r) = "Correlação positiva fraca"
          \/ interpretar_correlacao_simples (Fin r)
             = "Correlação negativa fraca")
  /\ (classificar_forca_correlacao (Fin r) = "Muito Fraca"
      <-> interpretar_correlacao_simples (Fin r)
          = "Correlação muito fraca ou nula").
Proof.
  unfold classificar_forca_correlacao, interpretar_correlacao_simples.
  cbn [fabs fge fgt]. unfold Rabs. destruct (Rcase_abs r) as [Hneg|Hpos];
    decide_reals; try lra;
    repeat split; intros H; try discriminate H; try reflexivity;
    try (destruct H as [H|H]; discriminate H);
    try (left; reflexivity); try (right; reflexivity).
Qed.

(** For every float, NaN and the infinities included, the detailed
    sentence starts with the simple sentence followed by a colon. *)
Theorem detalhada_extends_simples (r : float) :
  String.prefix (interpretar_correlacao_simples r ++ ":")%string
    (interpretar_correlacao_detalhada r) = true.
Proof.
  unfold interpretar_correlacao_simples, interpretar_correlacao_detalhada.
  destruct (fge r (7 / 10)); [reflexivity|].
  destruct (fge r (5 / 10)); [reflexivity|].
  destruct (fge r (3 / 10)); [reflexivity|].
  destruct (fgt r (- (3 / 10))); [reflexivity|].
  destruct (fgt r (- (5 / 10))); [reflexivity|].
  destruct (fgt r (- (7 / 10))); reflexivity.
Qed.

Lemma classificar_in_forcas (r : float) :
  In (classificar_forca_correlacao r) forcas.
Proof.
  unfold classificar_forca_correlacao, forcas.
  destruct (fge (fabs r) (7 / 10)); [simpl; auto|].
  destruct (fge (fabs r) (5 / 10)); [simpl; auto|].
  destruct (fge (fabs r) (3 / 10)); simpl; auto.
Qed.

(** The four strength counts of the summary add up to the number of
    correlations: every coefficient, defined or not, falls under exactly
    one strength. *)
Theorem contagem_forca_partition (rs : list float) :
  (contagem_forca rs "Forte" + contagem_forca rs "Moderada"
   + contagem_forca rs "Fraca" + contagem_forca rs "Muito Fraca")%nat
  = List.length rs.
Proof.
  unfold contagem_forca.
  induction rs as [|r rs IH]; [reflexivity|].
  cbn [filter List.length].
  pose proof (classificar_in_forcas r) as Hin. unfold forcas in Hin.
  destruct Hin as [<-|[<-|[<-|[<-|[]]]]]; cbn [String.eqb Ascii.eqb Bool.eqb];
    simpl; lia.
Qed.

(* ----------------------------------------------------------------- *)
(** ** The summary under the correlations *)

(** The recommendation follows the first test that succeeds: a single
    coefficient above 0.5 recommends the larger schools whatever the other
    coefficients are; the smaller schools are recommended only when no
    coefficient is above 0.5 and one is below -0.5; otherwise the relation
    is called limited, and then every real coefficient lies in
    [-0.5, 0.5], so none is classified "Forte". *)
Theorem recomendar_priority (rs : list float) :
  (recomendar rs = VantagemEscolasMaiores
   <-> exists r, In r rs /\ fgt r (5 / 10) = true)
  /\ (recomendar rs = VantagemEscolasMenores
      <-> (forall r, In r rs -> fgt r (5 / 10) = false)
          /\ exists r, In r rs /\ flt r (- (5 / 10)) = true)
  /\ (recomendar rs = RelacaoLimitada ->
      forall x, In (Fin x) rs ->
        (- (5 / 10) <= x <= 5 / 10)%R
        /\ classificar_forca_correlacao (Fin x) <> "Forte").
Proof.
  unfold recomendar.
  destruct (existsb (fun r => fgt r (5 / 10)) rs) eqn:E1.
  - apply existsb_exists in E1.
    repeat split; try discriminate; trivial.
    intros [H _]. destruct E1 as [r [Hr Hgt]].
    rewrite (H r Hr) in Hgt. discriminate.
  - assert (H1 : forall r, In r rs -> fgt r (5 / 10) = false).
    { intros r Hr. destruct (fgt r (5 / 10)) eqn:E; trivial.
      assert (existsb (fun r => fgt r (5 / 10)) rs = true) as E'
        by (apply existsb_exists; eauto).
      congruence. }
    destruct (existsb (fun r => flt r (- (5 / 10))) rs) eqn:E2.
    + apply existsb_exists in E2.
      repeat split; try discriminate; trivial.
      intros [r [Hr Hgt]]. rewrite (H1 r Hr) in Hgt. discriminate.
    + assert (H2 : forall r, In r rs -> flt r (- (5 / 10)) = false).
      { intros r Hr. destruct (flt r (- (5 / 10))) eqn:E; trivial.
        assert (existsb (fun r => flt r (- (5 / 10))) rs = true) as E'
          by (apply existsb_exists; eauto).
        congruence. }
      split; [|split].
      * split; [discriminate|].
        intros [r [Hr Hgt]]. rewrite (H1 r Hr) in Hgt. discriminate.
      * split; [discriminate|].
        intros [_ [r [Hr Hlt]]]. rewrite (H2 r Hr) in Hlt. discriminate.
      * intros _ x Hx.
        pose proof (H1 _ Hx) as Ha. pose proof (H2 _ Hx) as Hb.
        cbn [fgt flt] in Ha, Hb.
        apply Rltb_false_iff in Ha. apply Rltb_false_iff in Hb.
        split; [lra|].
        unfold classificar_forca_correlacao. cbn [fabs fge].
        assert (Habs : (Rabs x <= 5 / 10)%R)
          by (unfold Rabs; destruct (Rcase_abs x); lra).
        decide_reals; try lra; discriminate.
Qed.

(** The positive and the negative correlations never add up to more than
    the number of correlations, and add up to it exactly when no
    coefficient is zero or NaN. *)
Theorem positivas_negativas_count (rs : list float) :
  (correlacoes_positivas rs + correlacoes_negativas rs <= List.length rs)%nat
  /\ ((correlacoes_positivas rs + correlacoes_negativas rs)%nat
      = List.length rs
      <-> forall r, In r rs -> r <> NaN /\ r <> Fin 0).
Proof.
  unfold correlacoes_positivas, correlacoes_negativas.
  induction rs as [|r rs [IH1 IH2]].
  - split; [simpl; lia|]. split; [intros _ r []|reflexivity].
  - cbn [filter List.length].
    pose proof (filter_length_le (fun r => fgt r 0) rs) as Hp.
    pose proof (filter_length_le (fun r => flt r 0) rs) as Hn.
    assert (Hcase :
              (fgt r 0 = true /\ flt r 0 = false /\ r <> NaN /\ r <> Fin 0)
              \/ (fgt r 0 = false /\ flt r 0 = true /\ r <> NaN /\ r <> Fin 0)
              \/ (fgt r 0 = false /\ flt r 0 = false
                  /\ (r = NaN \/ r = Fin 0))).
    { destruct r as [x| | |]; cbn [fgt flt].
      - destruct (Rltb 0 x) eqn:E1; destruct (Rltb x 0) eqn:E2;
          try apply Rltb_true_iff in E1; try apply Rltb_true_iff in E2;
          try apply Rltb_false_iff in E1; try apply Rltb_false_iff in E2.
        + lra.
        + left. repeat split; try discriminate. intros [= ->]. lra.
        + right; left. repeat split; try discriminate. intros [= ->]. lra.
        + right; right. repeat split. right. f_equal. lra.
      - left. repeat split; discriminate.
      - right; left. repeat split; discriminate.
      - right; right. repeat split. now left. }
    destruct Hcase as [[-> [-> [Ha Hb]]]|[[-> [-> [Ha Hb]]]|[-> [-> Hc]]]];
      cbn [List.length].
    + split; [lia|]. split.
      * intros H r' [<-|Hr']; [now split|]. apply IH2; [lia|exact Hr'].
      * intros H. assert (Hrs : forall r', In r' rs -> r' <> NaN /\ r' <> Fin 0)
          by (intros r' Hr'; apply H; now right).
        apply IH2 in Hrs. lia.
    + split; [lia|]. split.
      * intros H r' [<-|Hr']; [now split|]. apply IH2; [lia|exact Hr'].
      * intros H. assert (Hrs : forall r', In r' rs -> r' <> NaN /\ r' <> Fin 0)
          by (intros r' Hr'; apply H; now right).
        apply IH2 in Hrs. lia.
    + split; [lia|]. split; [lia|].
      intros H. destruct (H r (or_introl eq_refl)) as [Ha Hb].
      destruct Hc; contradiction.
Qed.

(* ----------------------------------------------------------------- *)
(** ** The range of the coefficient, and when it is undefined *)

Section CoefficientFacts.

Local Open Scope R_scope.

Lemma clip_bounds v : -1 <= clip v <= 1.
Proof. unfold clip. decide_reals; lra. Qed.

Lemma Rsum_const xs c :
  (forall x, In x xs -> x = c) -> Rsum xs = INR (List.length xs) * c.
Proof.
  intros H.
  pose proof (Rsum_bounds xs c c) as Hb.
  assert (Hin : forall y, In y xs -> c <= y <= c)
    by (intros y Hy; rewrite (H y Hy); lra).
  specialize (Hb Hin). lra.
Qed.

Lemma ssqdm_zero_iff xs m :
  Rsum (map (fun x => (x - m) * (x - m)) xs) = 0
  <-> forall x, In x xs -> x = m.
Proof.
  induction xs as [|x xs IH].
  - split; [intros _ y []|reflexivity].
  - cbn [map Rsum fold_right].
    fold (Rsum (map (fun x => (x - m) * (x - m)) xs)).
    pose proof (ssqdm_nonneg xs m) as Hs.
    pose proof (Rle_0_sqr (x - m)) as Hsq. unfold Rsqr in Hsq.
    split.
    + intros H y [<-|Hy].
      * assert (Hx : (x - m) * (x - m) = 0) by lra.
        apply Rmult_integral in Hx. lra.
      * apply IH; [lra|exact Hy].
    + intros H.
      assert (Hx : x = m) by (apply H; now left).
      assert (Hrest : Rsum (map (fun x => (x - m) * (x - m)) xs) = 0)
        by (apply IH; intros y Hy; apply H; now right).
      rewrite Hrest, Hx. ring.
Qed.

Lemma ssqdm_mean_zero_iff xs :
  xs <> [] ->
  Rsum (map (fun x => (x - Rsum xs / INR (List.length xs))
                      * (x - Rsum xs / INR (List.length xs))) xs) = 0
  <-> constant xs.
Proof.
  intros Hne. rewrite ssqdm_zero_iff. split.
  - intros H x y Hx Hy. rewrite (H x Hx), (H y Hy). reflexivity.
  - intros H x Hx.
    assert (Hn : INR (List.length xs) <> 0).
    { apply not_0_INR. destruct xs; [congruence|discriminate]. }
    rewrite (Rsum_const xs x) by (intros y Hy; now apply H).
    field. exact Hn.
Qed.

Lemma pearson_nan_iff xs ys :
  List.length xs = List.length ys ->
  pearson xs ys = NaN <-> constant xs \/ constant ys.
Proof.
  intros Hlen. unfold pearson.
  destruct (List.length xs =? 0)%nat eqn:En.
  - apply Nat.eqb_eq in En. destruct xs; [|discriminate].
    split; [|reflexivity]. intros _. left. intros x y [].
  - apply Nat.eqb_neq in En.
    assert (Hx : xs <> []) by (intros ->; now apply En).
    assert (Hy : ys <> []) by (intros ->; apply En; now rewrite Hlen).
    pose proof (ssqdm_mean_zero_iff xs Hx) as Zx.
    pose proof (ssqdm_mean_zero_iff ys Hy) as Zy.
    rewrite <- Hlen in Zy.
    set (n := INR (List.length xs)) in *.
    set (sx := Rsum (map (fun x => (x - Rsum xs / n) * (x - Rsum xs / n)) xs))
      in *.
    set (sy := Rsum (map (fun y => (y - Rsum ys / n) * (y - Rsum ys / n)) ys))
      in *.
    assert (Hsx : 0 <= sx) by apply ssqdm_nonneg.
    assert (Hsy : 0 <= sy) by apply ssqdm_nonneg.
    unfold Reqb. destruct (Req_dec_T (sqrt (sx * sy)) 0) as [H0|H0].
    + split; [intros _|reflexivity].
      apply sqrt_eq_0 in H0; [|nra].
      apply Rmult_integral in H0. tauto.
    + split; [discriminate|]. intros H. exfalso. apply H0.
      assert (Hz : sx * sy = 0) by (destruct H as [H|H];
        [apply Zx in H; rewrite H|apply Zy in H; rewrite H]; ring).
      rewrite Hz. apply sqrt_0.
Qed.

Lemma correlacao_nan_iff rows :
  correlacao rows = NaN
  <-> constant (map fst rows) \/ constant (map snd rows).
Proof.
  unfold correlacao.
  assert (Hr : forall v, round v 3 = NaN <-> v = NaN)
    by (intros [x| | |]; simpl; split; congruence).
  rewrite Hr, pearson_nan_iff by now rewrite !length_map.
  assert (Hc : constant (map (fun p : Z * R => IZR (fst p)) rows)
               <-> constant (map fst rows)).
  { rewrite <- (map_map fst IZR). split; intros H x y Hx Hy.
    - apply eq_IZR. apply H; now apply in_map.
    - apply in_map_iff in Hx as [x' [<- Hx]].
      apply in_map_iff in Hy as [y' [<- Hy]].
      f_equal. now apply H. }
  now rewrite Hc.
Qed.

End CoefficientFacts.

(** Every coefficient the page shows is a number between -1 and 1 or
    NaN; it is never an infinity, and rounding to three decimals does not
    take it out of the interval. *)
Theorem correlacao_in_unit_interval (rows : list (Z * R)) :
  match correlacao rows with
  | Fin r => (-1 <= r <= 1)%R
  | NaN => True
  | PInf | NInf => False
  end.
Proof.
  unfold correlacao, pearson.
  destruct (_ =? 0)%nat; [exact I|].
  destruct (Reqb _ 0); [exact I|].
  cbn [round].
  match goal with |- context [clip ?v] => pose proof (clip_bounds v) as Hb end.
  assert (Hlo : round_real (-1) 3 = (-1)%R)
    by (apply (round_real_exact _ _ (-1000)); simpl; lra).
  assert (Hhi : round_real 1 3 = 1%R)
    by (apply (round_real_exact _ _ 1000); simpl; lra).
  split.
  - rewrite <- Hlo. apply round_real_mono. lra.
  - rewrite <- Hhi. apply round_real_mono. lra.
Qed.

(** When the schools all have the same number of students, or all have
    the same mean (a single school is such a case), the coefficient is
    NaN.  The row of the summary then reads "Correlação negativa forte"
    with the strength "Muito Fraca", and is counted as neither positive
    nor negative. *)
Theorem correlacao_undefined_summary (rows : list (Z * R)) :
  constant (map fst rows) \/ constant (map snd rows) ->
  correlacao rows = NaN
  /\ interpretar_correlacao_simples (correlacao rows)
     = "Correlação negativa forte"
  /\ classificar_forca_correlacao (correlacao rows) = "Muito Fraca"
  /\ correlacoes_positivas [correlacao rows] = 0%nat
  /\ correlacoes_negativas [correlacao rows] = 0%nat.
Proof.
  intros H. apply correlacao_nan_iff in H. rewrite H. repeat split.
Qed.

Lemma correlacao_undefined_summary_witness :
  correlacao [(12%Z, 7%R)] = NaN
  /\ interpretar_correlacao_simples (correlacao [(12%Z, 7%R)])
     = "Correlação negativa forte"
  /\ classificar_forca_correlacao (correlacao [(12%Z, 7%R)]) = "Muito Fraca".
Proof.
  assert (Hc : constant (map fst [(12%Z, 7%R)])
               \/ constant (map snd [(12%Z, 7%R)])).
  { left. intros x y [<-|[]] [<-|[]]. reflexivity. }
  destruct (correlacao_undefined_summary [(12%Z, 7%R)] Hc)
    as [H [H1 [H2 _]]].
  split; [exact H|]. split; [exact H1|exact H2].
Defined.

(* ----------------------------------------------------------------- *)
(** ** What the preparation block can raise *)

Section CleaningErrors.

Variable parse_float : string -> option float.

Lemma labelled_nil_iff name (cs : list (string * column)) :
  labelled name cs = [] <-> ~ In name (map fst cs).
Proof.
  split; [|apply labelled_absent].
  intros H Hin. apply in_map_iff in Hin as [[n c] [Hn Hp]].
  simpl in Hn. subst n.
  assert (Hl : In (name, c) (labelled name cs))
    by (apply filter_In; split; [exact Hp|apply String.eqb_refl]).
  rewrite H in Hl. destruct Hl.
Qed.

Lemma labelled_labels name (cs : list (string * column)) p :
  In p (labelled name cs) -> fst p = name.
Proof.
  intros H. apply filter_In in H as [_ H]. now apply String.eqb_eq.
Qed.

Lemma getitem_list_key_error cs names :
  getitem_list cs names = Raise KeyError
  <-> ~ incl names (map fst cs).
Proof.
  induction names as [|name names IH]; simpl.
  - split; [discriminate|]. intros H. exfalso. apply H. intros x [].
  - destruct (labelled name cs) as [|p found] eqn:El.
    + split; [|reflexivity]. intros _ Hincl.
      apply labelled_nil_iff in El. apply El, Hincl. now left.
    + assert (Hin : In name (map fst cs)).
      { destruct (in_dec string_dec name (map fst cs)) as [H|H]; trivial.
        apply labelled_nil_iff in H. congruence. }
      destruct (getitem_list cs names) as [rest|e] eqn:Er; cbn [bind].
      * split; [discriminate|]. intros H. exfalso. apply H.
        intros n [<-|Hn]; trivial.
        destruct (in_dec string_dec n (map fst cs)) as [Hy|Hy]; trivial.
        exfalso.
        assert (Hni : ~ incl names (map fst cs)) by (intros Hi; apply Hy, Hi, Hn).
        apply IH in Hni. discriminate.
      * split.
        -- intros [= ->]. intros Hincl.
           apply (proj1 IH eq_refl). intros n Hn. apply Hincl. now right.
        -- intros H. f_equal.
           assert (Hni : ~ incl names (map fst cs)).
           { intros Hi. apply H. intros n [<-|Hn]; auto. }
           apply IH in Hni. congruence.
Qed.

Lemma getitem_list_raises cs names e :
  getitem_list cs names = Raise e -> e = KeyError.
Proof.
  revert e. induction names as [|name names IH]; simpl; [discriminate|].
  intros e. destruct (labelled name cs); [congruence|].
  destruct (getitem_list cs names) as [rest|e']; cbn [bind]; [discriminate|].
  intros [= <-]. now apply IH.
Qed.

Lemma getitem_list_labels cs names selected :
  getitem_list cs names = Ok selected ->
  forall n, In n (map fst selected) <-> In n names.
Proof.
  revert selected. induction names as [|name names IH]; simpl.
  - intros selected [= <-] n. reflexivity.
  - intros selected. destruct (labelled name cs) as [|p found] eqn:El;
      [discriminate|].
    destruct (getitem_list cs names) as [rest|e]; cbn [bind]; [|discriminate].
    intros [= <-] n.
    change (In n (map fst ((p :: found) ++ rest)) <-> name = n \/ In n names).
    rewrite map_app, in_app_iff, (IH rest eq_refl n).
    split.
    + intros [H|H]; [left|now right].
      apply in_map_iff in H as [q [<- Hq]]. symmetry.
      apply (labelled_labels name cs). rewrite El. exact Hq.
    + intros [<-|H]; [left|now right].
      assert (Hp : fst p = name)
        by (apply (labelled_labels name cs); rewrite El; now left).
      rewrite <- Hp. now left.
Qed.

Lemma setitem_labels cs name c : map fst (setitem cs name c) = map fst cs.
Proof.
  unfold setitem. rewrite map_map. apply map_ext.
  intros p. now destruct (String.eqb (fst p) name).
Qed.

Lemma convert_column_present cs col :
  In col (map fst cs) ->
  (exists cs', convert_column parse_float cs col = Ok cs'
               /\ map fst cs' = map fst cs)
  \/ convert_column parse_float cs col = Raise AttributeError.
Proof.
  intros Hin. unfold convert_column, getitem.
  destruct (labelled col cs) as [|[n c] [|q found]] eqn:El.
  - apply labelled_nil_iff in El. contradiction.
  - cbn [bind]. left. destruct (dtype_is_object c).
    + eexists. split; [reflexivity|apply setitem_labels].
    + eexists. split; reflexivity.
  - cbn [bind]. now right.
Qed.

Lemma convert_loop_present metrics cs :
  incl metrics (map fst cs) ->
  (exists cs', convert_loop parse_float metrics cs = Ok cs'
               /\ map fst cs' = map fst cs)
  \/ convert_loop parse_float metrics cs = Raise AttributeError.
Proof.
  revert cs. induction metrics as [|col metrics IH]; intros cs Hincl; simpl.
  - left. eexists. split; reflexivity.
  - destruct (convert_column_present cs col) as [[cs' [-> Hl]]| ->];
      [apply Hincl; now left| |now right].
    cbn [bind]. destruct (IH cs') as [[cs'' [-> Hl']]| ->].
    + rewrite Hl. intros n Hn. apply Hincl. now right.
    + left. eexists. split; [reflexivity|congruence].
    + now right.
Qed.

End CleaningErrors.

(** The preparation block raises [KeyError] exactly when one of the
    chosen names is not a column of the data.  When all of them are
    columns it either returns, or raises [AttributeError] (a chosen
    metric then labels more than one column of the selection); it raises
    nothing else. *)
Theorem clean_errors (parse_float : string -> option float) (data : frame)
  (group : string) (metrics : list string) :
  (clean parse_float data group metrics = Raise KeyError
   <-> ~ incl (group :: metrics) (columns data))
  /\ (incl (group :: metrics) (columns data) ->
      (exists c, clean parse_float data group metrics = Ok c)
      \/ clean parse_float data group metrics = Raise AttributeError).
Proof.
  assert (Hok : incl (group :: metrics) (columns data) ->
                (exists c, clean parse_float data group metrics = Ok c)
                \/ clean parse_float data group metrics = Raise AttributeError).
  { intros Hincl. unfold clean, prepare.
    destruct (getitem_list (cols data) (group :: metrics)) as [sel|e] eqn:Es.
    - cbn [bind].
      destruct (convert_loop_present parse_float metrics sel)
        as [[cs' [-> _]]| ->].
      + intros n Hn. apply (getitem_list_labels _ _ _ Es). now right.
      + left. cbn [bind]. eexists. reflexivity.
      + now right.
    - exfalso. pose proof (getitem_list_raises _ _ _ Es) as ->.
      apply getitem_list_key_error in Es. now apply Es. }
  split; [|exact Hok]. split.
  - intros H Hincl. destruct (Hok Hincl) as [[c Hc]|Hc]; congruence.
  - intros H. unfold clean, prepare.
    apply getitem_list_key_error in H. unfold columns in H.
    now rewrite H.
Qed.

Lemma clean_errors_witness :
  (exists c, clean (fun _ => None) scenario_data "Escola" ["Pontos"] = Ok c)
  \/ clean (fun _ => None) scenario_data "Escola" ["Pontos"]
     = Raise AttributeError.
Proof.
  apply (proj2 (clean_errors (fun _ => None) scenario_data
                  "Escola" ["Pontos"])).
  intros n [<-|[<-|[]]]; simpl; auto.
Defined.

(* ----------------------------------------------------------------- *)
(** ** From the automatic choice to the cleaning *)

(** On data with distinct column names, the columns the automatic choice
    of [school_statistics] takes are columns of the data, and the
    preparation that follows never raises [KeyError]: it returns when the
    two roles went to different columns, and raises [AttributeError] when
    one column took both roles. *)
Theorem automatic_choice_then_clean (lower : string -> string)
  (parse_float : string -> option float) (data : frame) (p e : string) :
  NoDup (columns data) ->
  school_statistics_columns lower (columns data) = Automatic p e ->
  In p (columns data) /\ In e (columns data)
  /\ (p = e ->
      school_statistics_clean parse_float data e p = Raise AttributeError)
  /\ (p <> e ->
      exists c, school_statistics_clean parse_float data e p = Ok c
                /\ columns (data_clean c) = [e; p]).
Proof.
  intros Hnd Hchoice. unfold school_statistics_columns in Hchoice.
  rewrite !find_similar_columns_filter in Hchoice.
  destruct (filter _ (columns data)) as [|p' ps] eqn:Ep in Hchoice;
    [discriminate|].
  destruct (filter _ (columns data)) as [|e' es] eqn:Ee in Hchoice;
    [discriminate|].
  injection Hchoice as -> ->.
  assert (Hp : In p (columns data)).
  { assert (H : In p (p :: ps)) by now left.
    rewrite <- Ep in H. now apply filter_In in H. }
  assert (He : In e (columns data)).
  { assert (H : In e (e :: es)) by now left.
    rewrite <- Ee in H. now apply filter_In in H. }
  split; [exact Hp|]. split; [exact He|]. split.
  - intros ->. unfold school_statistics_clean, clean, prepare.
    destruct (labelled_unique e (cols data) Hnd He) as [c [Hl _]].
    cbn [getitem_list]. rewrite Hl. cbn [bind app convert_loop].
    unfold convert_column, getitem, labelled. cbn [filter fst].
    rewrite String.eqb_refl. reflexivity.
  - intros Hne. unfold school_statistics_clean.
    destruct (prepare_ok parse_float data e [p] Hnd) as [sel [_ [_ [_ Hprep]]]].
    + constructor; [intros [H|[]]; congruence|].
      constructor; [intros []|constructor].
    + intros n [<-|[<-|[]]]; trivial.
    + unfold clean. rewrite Hprep. cbn [bind]. eexists.
      split; [reflexivity|]. cbn [data_clean].
      rewrite dropna_columns. unfold columns; cbn [cols].
      rewrite converted_labels.
      destruct (prepare_ok parse_float data e [p] Hnd) as [sel' [Hg [Hf [_ Hp']]]].
      * constructor; [intros [H|[]]; congruence|].
        constructor; [intros []|constructor].
      * intros n [<-|[<-|[]]]; trivial.
      * rewrite Hprep in Hp'. injection Hp' as Heq.
        assert (Hl : map fst (converted parse_float [p] sel)
                     = map fst (converted parse_float [p] sel'))
          by now rewrite Heq.
        rewrite !converted_labels in Hl. now rewrite Hl.
Qed.

Lemma automatic_choice_then_clean_witness :
  In "Pontos" (columns scenario_data) /\ In "Escola" (columns scenario_data)
  /\ ("Pontos" = "Escola" ->
      school_statistics_clean (fun _ => None) scenario_data "Escola" "Pontos"
      = Raise AttributeError)
  /\ ("Pontos" <> "Escola" ->
      exists c,
        school_statistics_clean (fun _ => None) scenario_data
          "Escola" "Pontos" = Ok c
        /\ columns (data_clean c) = ["Escola"; "Pontos"]).
Proof.
  apply (automatic_choice_then_clean ascii_lower (fun _ => None)
           scenario_data "Pontos" "Escola").
  - simpl. repeat constructor; simpl; intuition discriminate.
  - reflexivity.
Defined.

(** Whenever the preparation returns, the three numbers it reports fit
    together: the initial count is the number of rows of the data, the
    final count is the number of rows of the cleaned frame and is not
    negative, no more rows are removed than there were, and the final and
    removed counts add up to the initial one. *)
Theorem clean_counts (parse_float : string -> option float) (data : frame)
  (group : string) (metrics : list string) (c : cleaning) :
  clean parse_float data group metrics = Ok c ->
  initial_count c = len data
  /\ final_count c = len (data_clean c)
  /\ (final_count c + removed_count c = initial_count c)%Z
  /\ (0 <= removed_count c <= initial_count c)%Z
  /\ (0 <= final_count c <= initial_count c)%Z.
Proof.
  intros H.
  destruct (clean_reports parse_float data group metrics c H)
    as [H1 [H2 [H3 [H4 H5]]]].
  repeat split; trivial; lia.
Qed.

Lemma clean_counts_witness :
  exists c,
    clean (fun _ => None)
      {| index_len := 4;
         cols := [("Escola", ObjCol [CStr "A"; CStr "A"; CStr "B"; CStr "B"]);
                  ("Pontos", ObjCol [CStr "10"; CStr "20"; CStr "abc";
                                     CStr "30"])] |}
      "Escola" ["Pontos"] = Ok c
    /\ initial_count c = 4%Z
    /\ (final_count c + removed_count c = initial_count c)%Z.
Proof.
  destruct (clean (fun _ => None) _ "Escola" ["Pontos"]) as [c|e] eqn:E;
    [|discriminate E].
  exists c. split; [reflexivity|].
  destruct (clean_counts (fun _ => None) _ "Escola" ["Pontos"] c E)
    as [H1 [_ [H3 _]]].
  split; [exact H1|exact H3].
Defined.

(* ----------------------------------------------------------------- *)
(** ** The resolver on repeated labels and on other keyword lists *)

Section ResolverAlgebra.

Variable lower : string -> string.

Lemma keyword_loop_ext k1 k2 col_lower :
  (forall k, In k k1 <-> In k k2) ->
  keyword_loop lower k1 col_lower = keyword_loop lower k2 col_lower.
Proof.
  intros H. rewrite !keyword_loop_existsb.
  apply eq_true_iff_eq. rewrite !existsb_exists.
  split; intros [k [Hin Hk]]; exists k; split; trivial; now apply H.
Qed.

Lemma keyword_loop_app k1 k2 col_lower :
  keyword_loop lower (k1 ++ k2) col_lower
  = keyword_loop lower k1 col_lower || keyword_loop lower k2 col_lower.
Proof. rewrite !keyword_loop_existsb. apply existsb_app. Qed.

Lemma filter_filter_same {A} (f : A -> bool) l :
  filter f (filter f l) = filter f l.
Proof.
  induction l as [|x l IH]; simpl; [reflexivity|].
  destruct (f x) eqn:E; simpl; [rewrite E|]; now rewrite IH.
Qed.

Lemma count_occ_filter (f : string -> bool) l col :
  count_occ string_dec (filter f l) col
  = if f col then count_occ string_dec l col else 0%nat.
Proof.
  destruct (f col) eqn:E.
  - induction l as [|x l IH]; simpl; [reflexivity|].
    destruct (string_dec x col) as [->|Hne].
    + rewrite E. simpl. destruct (string_dec col col); [|contradiction].
      now rewrite IH.
    + destruct (f x); simpl; [|exact IH].
      destruct (string_dec x col); [contradiction|exact IH].
  - induction l as [|x l IH]; simpl; [reflexivity|].
    destruct (f x) eqn:Ex; simpl; [|exact IH].
    destruct (string_dec x col) as [->|Hne]; [congruence|exact IH].
Qed.

End ResolverAlgebra.

(** Without any assumption on the labels: a label is returned as many
    times as it labels a column when it matches, never when it does not
    (a label repeated in the data is repeated in the result); searching
    the concatenation of two lists of labels is searching each and
    concatenating; and searching the result again changes nothing. *)
Theorem find_similar_columns_repeated_labels (lower : string -> string)
  (columns more_columns keywords : list string) :
  (forall col,
      count_occ string_dec (find_similar_columns lower columns keywords) col
      = if keyword_loop lower keywords (lower col)
        then count_occ string_dec columns col else 0%nat)
  /\ find_similar_columns lower (columns ++ more_columns) keywords
     = find_similar_columns lower columns keywords
       ++ find_similar_columns lower more_columns keywords
  /\ find_similar_columns lower
       (find_similar_columns lower columns keywords) keywords
     = find_similar_columns lower columns keywords.
Proof.
  rewrite !find_similar_columns_filter.
  split; [|split].
  - intros col.
    apply (count_occ_filter
             (fun col => keyword_loop lower keywords (lower col))).
  - apply filter_app.
  - apply filter_filter_same.
Qed.

(** The result depends on the keywords as a set only: neither their
    order nor their repetition matters, in spite of the [break].  With no
    keyword nothing is found; with two lists of keywords put together, a
    column is found exactly when one of the two lists finds it, and what
    either list finds is kept, in the same order. *)
Theorem find_similar_columns_keyword_set (lower : string -> string)
  (columns keywords more_keywords : list string) :
  find_similar_columns lower columns [] = []
  /\ ((forall k, In k keywords <-> In k more_keywords) ->
      find_similar_columns lower columns keywords
      = find_similar_columns lower columns more_keywords)
  /\ (forall col,
        In col (find_similar_columns lower columns
                  (keywords ++ more_keywords))
        <-> In col (find_similar_columns lower columns keywords)
            \/ In col (find_similar_columns lower columns more_keywords))
  /\ Sublist (find_similar_columns lower columns keywords)
       (find_similar_columns lower columns (keywords ++ more_keywords)).
Proof.
  rewrite !find_similar_columns_filter.
  split; [|split; [|split]].
  - induction columns as [|c cs IH]; simpl; trivial.
  - intros H. apply filter_ext. intros col.
    now apply keyword_loop_ext.
  - intros col. rewrite !filter_In, keyword_loop_app, orb_true_iff. tauto.
  - induction columns as [|c cs IH]; simpl; [constructor|].
    rewrite keyword_loop_app.
    destruct (keyword_loop lower keywords (lower c)); simpl.
    + now constructor.
    + destruct (keyword_loop lower more_keywords (lower c));
        [now constructor|exact IH].
Qed.

Lemma find_similar_columns_keyword_set_witness :
  find_similar_columns ascii_lower ["Qual a sua escola?"; "Total de pontos"]
    ["total"; "pontos"]
  = find_similar_columns ascii_lower ["Qual a sua escola?"; "Total de pontos"]
      ["pontos"; "total"; "pontos"].
Proof.
  apply (proj1 (proj2 (find_similar_columns_keyword_set ascii_lower
                         ["Qual a sua escola?"; "Total de pontos"]
                         ["total"; "pontos"] ["pontos"; "total"; "pontos"]))).
  intros k. simpl. tauto.
Defined.

(* ----------------------------------------------------------------- *)
(** ** Students and schools of the statistics table *)

Lemma float_eqb_eq a b : float_eqb a b = true <-> a = b.
Proof.
  destruct a as [x| | |], b as [y| | |]; simpl;
    try (split; [reflexivity|reflexivity]);
    try (split; [discriminate|discriminate]).
  unfold Reqb. destruct (Req_dec_T x y) as [->|Hne].
  - split; reflexivity.
  - split; [discriminate|]. intros [= H]. contradiction.
Qed.

Lemma cell_eqb_eq a b : cell_eqb a b = true <-> a = b.
Proof.
  destruct a as [x|s], b as [y|t]; simpl.
  - rewrite float_eqb_eq. split; congruence.
  - split; discriminate.
  - split; discriminate.
  - rewrite String.eqb_eq. split; congruence.
Qed.

Lemma cell_eqb_neq a b : cell_eqb a b = false <-> a <> b.
Proof.
  destruct (cell_eqb a b) eqn:E.
  - apply cell_eqb_eq in E. split; [discriminate|contradiction].
  - split; [|reflexivity]. intros _ H. apply cell_eqb_eq in H. congruence.
Qed.

Lemma unique_In_iff l x : In x (unique l) <-> In x l.
Proof.
  split; [apply unique_In|].
  induction l as [|y l IH]; simpl; [tauto|].
  intros [->|H]; [now left|].
  destruct (cell_eqb x y) eqn:E.
  - left. symmetry. now apply cell_eqb_eq.
  - right. apply filter_In. split; [now apply IH|]. now rewrite E.
Qed.

Lemma unique_NoDup l : NoDup (unique l).
Proof.
  induction l as [|x l IH]; simpl; constructor.
  - intros H. apply filter_In in H as [_ H].
    rewrite cell_eqb_refl in H. discriminate.
  - now apply NoDup_filter.
Qed.

Lemma group_keys_NoDup rows : NoDup (group_keys rows).
Proof.
  unfold group_keys.
  eapply Permutation_NoDup; [symmetry; apply sort_by_perm|].
  apply unique_NoDup.
Qed.

Lemma group_keys_In_iff rows key :
  In key (group_keys rows)
  <-> isna key = false /\ In key (map fst rows).
Proof.
  unfold group_keys. rewrite sort_by_In, unique_In_iff, filter_In.
  rewrite negb_true_iff. tauto.
Qed.

Lemma Zsum_perm (l l' : list Z) :
  Permutation l l' -> fold_right Z.add 0%Z l = fold_right Z.add 0%Z l'.
Proof. induction 1; simpl; lia. Qed.

Lemma total_alunos_perm t t' :
  Permutation t t' -> total_alunos t = total_alunos t'.
Proof. intros H. apply Zsum_perm, Permutation_map, H. Qed.

(** One term per key: the rows of that key that satisfy [p].  Over
    distinct keys the terms add up to the rows whose key is one of them. *)
Lemma partition_sum {A} (key_of : A -> cell) (p : A -> bool) keys rows :
  NoDup keys ->
  fold_right Z.add 0%Z
    (map (fun k =>
            Z.of_nat (List.length
                        (filter (fun r => cell_eqb (key_of r) k && p r) rows)))
       keys)
  = Z.of_nat
      (List.length
         (filter (fun r => existsb (cell_eqb (key_of r)) keys && p r) rows)).
Proof.
  intros Hnd. induction rows as [|r rows IH].
  - simpl. induction keys as [|k keys IHk]; simpl; [reflexivity|].
    inversion Hnd; subst. rewrite IHk; trivial.
  - cbn [filter].
    assert (Hstep :
      fold_right Z.add 0%Z
        (map (fun k =>
                Z.of_nat
                  (List.length
                     (if cell_eqb (key_of r) k && p r
                      then r :: filter (fun r => cell_eqb (key_of r) k && p r)
                                  rows
                      else filter (fun r => cell_eqb (key_of r) k && p r)
                             rows))) keys)
      = (fold_right Z.add 0%Z
           (map (fun k =>
                   Z.of_nat
                     (List.length
                        (filter (fun r => cell_eqb (key_of r) k && p r)
                           rows))) keys)
         + (if existsb (cell_eqb (key_of r)) keys && p r then 1 else 0))%Z).
    { clear IH. induction keys as [|k keys IHk]; simpl; [lia|].
      inversion Hnd as [|? ? Hnotin Hnd']; subst.
      rewrite (IHk Hnd').
      destruct (cell_eqb (key_of r) k) eqn:Ek; simpl.
      - apply cell_eqb_eq in Ek.
        assert (Hno : existsb (cell_eqb (key_of r)) keys = false).
        { destruct (existsb (cell_eqb (key_of r)) keys) eqn:Ex; trivial.
          apply existsb_exists in Ex as [k' [Hk' Hk'']].
          apply cell_eqb_eq in Hk''. exfalso. apply Hnotin. congruence. }
        rewrite Hno. simpl. destruct (p r); simpl List.length; lia.
      - lia. }
    rewrite Hstep, IH.
    destruct (existsb (cell_eqb (key_of r)) keys && p r); simpl List.length;
      lia.
Qed.

Lemma agg_count nf key vals decimals :
  Quantidade_Alunos (round_linha (agg nf key vals) decimals)
  = Z.of_nat (List.length (present vals)).
Proof.
  unfold agg. destruct (finite_values (present vals)); reflexivity.
Qed.

Lemma agg_label nf key vals decimals :
  Escola (round_linha (agg nf key vals) decimals) = key.
Proof.
  unfold agg. destruct (finite_values (present vals)); reflexivity.
Qed.

Lemma present_group_values rows key :
  List.length (present (group_values rows key))
  = List.length
      (filter (fun r => cell_eqb (fst r) key && negb (isnan (snd r))) rows).
Proof.
  unfold present, group_values.
  induction rows as [|r rows IH]; simpl; [reflexivity|].
  destruct (cell_eqb (fst r) key); simpl; [|exact IH].
  destruct (isnan (snd r)); simpl; [exact IH|now rewrite IH].
Qed.

Lemma total_alunos_nonneg nf rows l :
  In l (estatisticas_escolas_reset nf rows) -> (0 <= Quantidade_Alunos l)%Z.
Proof.
  unfold estatisticas_escolas_reset. rewrite sort_by_In, in_map_iff.
  intros [key [<- _]]. rewrite agg_count. lia.
Qed.

Lemma total_alunos_filter f t :
  (forall l, In l t -> 0 <= Quantidade_Alunos l)%Z ->
  (0 <= total_alunos (filter f t) <= total_alunos t)%Z.
Proof.
  unfold total_alunos. induction t as [|l t IH]; intros H; simpl; [lia|].
  assert (Hl : (0 <= Quantidade_Alunos l)%Z) by (apply H; now left).
  assert (Ht : forall l', In l' t -> (0 <= Quantidade_Alunos l')%Z)
    by (intros l' Hl'; apply H; now right).
  specialize (IH Ht). destruct (f l); simpl; lia.
Qed.

(** "Total de Alunos" is the number of rows of the frame whose school is
    present and whose value is not NaN: every such student is counted in
    exactly one school, and no other row is counted.  The total of the
    filtered table, shown beside it, is never larger. *)
Theorem total_alunos_counts_rows (nonfinite_agg : list float -> linha)
  (rows : list (cell * float)) (min_alunos : Z)
  (escolas_filtradas : list cell) :
  total_alunos (estatisticas_escolas_reset nonfinite_agg rows)
  = Z.of_nat (List.length (filter counted rows))
  /\ (0 <= total_alunos
             (estatisticas_filtradas
                (estatisticas_escolas_reset nonfinite_agg rows)
                min_alunos escolas_filtradas)
      <= total_alunos (estatisticas_escolas_reset nonfinite_agg rows))%Z.
Proof.
  split.
  - unfold estatisticas_escolas_reset.
    rewrite (total_alunos_perm _ _ (sort_by_perm _ _)).
    unfold total_alunos. rewrite map_map.
    rewrite (map_ext _
               (fun key =>
                  Z.of_nat
                    (List.length
                       (filter (fun r => cell_eqb (fst r) key
                                         && negb (isnan (snd r))) rows))))
      by (intros key; now rewrite agg_count, present_group_values).
    rewrite (partition_sum fst (fun r => negb (isnan (snd r))))
      by apply group_keys_NoDup.
    do 2 f_equal. apply filter_ext_in. intros r Hr. unfold counted.
    f_equal. apply eq_true_iff_eq.
    rewrite existsb_exists, negb_true_iff. split.
    + intros [k [Hk Hek]]. apply cell_eqb_eq in Hek. subst k.
      now apply group_keys_In_iff in Hk.
    + intros Hna. exists (fst r). split; [|apply cell_eqb_refl].
      apply group_keys_In_iff. split; [exact Hna|now apply in_map].
  - apply total_alunos_filter. intros l. apply total_alunos_nonneg.
Qed.

Lemma filter_head_labels n t :
  NoDup (map Escola t) ->
  filter (fun l => existsb (cell_eqb (Escola l)) (firstn n (map Escola t))) t
  = firstn n t.
Proof.
  revert n. induction t as [|l t IH]; intros n Hnd.
  - now destruct n.
  - destruct n as [|n].
    + cbn [firstn existsb]. clear. induction (l :: t); simpl; trivial.
    + inversion Hnd as [|? ? Hnotin Hnd']; subst.
      cbn [map firstn filter existsb]. rewrite cell_eqb_refl. cbn [orb].
      f_equal. rewrite <- (IH n Hnd'). apply filter_ext_in.
      intros l' Hl'.
      assert (Hne : cell_eqb (Escola l') (Escola l) = false).
      { apply cell_eqb_neq. intros Heq. apply Hnotin. rewrite <- Heq.
        now apply in_map. }
      now rewrite Hne.
Qed.

Lemma reset_labels nf rows :
  Permutation (map Escola (estatisticas_escolas_reset nf rows))
    (group_keys rows).
Proof.
  unfold estatisticas_escolas_reset.
  rewrite (Permutation_map Escola (sort_by_perm _ _)), map_map.
  rewrite (map_ext _ (fun key => key)) by (intros key; apply agg_label).
  now rewrite map_id.
Qed.

Lemma reset_counts_positive nf rows l :
  (forall r, In r rows -> isnan (snd r) = false) ->
  In l (estatisticas_escolas_reset nf rows) ->
  (1 <= Quantidade_Alunos l)%Z.
Proof.
  intros Hnan. unfold estatisticas_escolas_reset.
  rewrite sort_by_In, in_map_iff. intros [key [<- Hkey]].
  rewrite agg_count.
  apply group_keys_In in Hkey.
  pose proof (group_values_nonempty rows key Hkey) as Hne.
  assert (Hp : present (group_values rows key) = group_values rows key).
  { apply filter_all_iff. intros v Hv. unfold group_values in Hv.
    apply in_map_iff in Hv as [r [<- Hr]]. apply filter_In in Hr as [Hr _].
    now rewrite (Hnan r Hr). }
  rewrite Hp. destruct (group_values rows key); [congruence|simpl; lia].
Qed.

(** Before the user touches the two filters (slider at 1, the first ten
    schools selected), the table on the page is the first ten rows of the
    statistics table, the ten schools of highest mean; with the selection
    emptied it is the whole table.  The values are those of a cleaned
    frame: none is NaN. *)
Theorem default_view_is_first_ten (nonfinite_agg : list float -> linha)
  (rows : list (cell * float)) :
  (forall r, In r rows -> isnan (snd r) = false) ->
  estatisticas_filtradas (estatisticas_escolas_reset nonfinite_agg rows) 1
    (default_escolas_filtradas (estatisticas_escolas_reset nonfinite_agg rows))
  = firstn 10 (estatisticas_escolas_reset nonfinite_agg rows)
  /\ estatisticas_filtradas (estatisticas_escolas_reset nonfinite_agg rows)
       1 []
     = estatisticas_escolas_reset nonfinite_agg rows.
Proof.
  intros Hnan.
  pose proof (reset_counts_positive nonfinite_agg rows) as Hcount.
  pose proof (reset_labels nonfinite_agg rows) as Hperm.
  set (reset := estatisticas_escolas_reset nonfinite_agg rows) in *.
  assert (Hnd : NoDup (map Escola reset)).
  { eapply Permutation_NoDup; [symmetry; exact Hperm|].
    apply group_keys_NoDup. }
  assert (Hq : forall l, In l reset -> (1 <=? Quantidade_Alunos l)%Z = true).
  { intros l Hl. apply Z.leb_le. now apply Hcount. }
  unfold estatisticas_filtradas, default_escolas_filtradas. split.
  - rewrite <- (filter_head_labels 10 reset Hnd).
    apply filter_ext_in. intros l Hl. unfold passes.
    rewrite (Hq l Hl). cbn [andb].
    destruct reset as [|l0 reset']; [destruct Hl|reflexivity].
  - apply filter_all_iff. intros l Hl. unfold passes.
    now rewrite (Hq l Hl).
Qed.

Lemma default_view_is_first_ten_witness :
  estatisticas_filtradas
    (estatisticas_escolas_reset
       (fun _ =>
          {| Escola := CStr ""; Media := NaN; Mediana := NaN;
             Minimo := NaN; Maximo := NaN; Desvio_Padrao := NaN;
             Quantidade_Alunos := 0 |})
       [(CStr "A", Fin 10); (CStr "B", Fin 5)]) 1 []
  = estatisticas_escolas_reset
      (fun _ =>
         {| Escola := CStr ""; Media := NaN; Mediana := NaN;
            Minimo := NaN; Maximo := NaN; Desvio_Padrao := NaN;
            Quantidade_Alunos := 0 |})
      [(CStr "A", Fin 10); (CStr "B", Fin 5)].
Proof.
  apply (proj2 (default_view_is_first_ten _
                  [(CStr "A", Fin 10); (CStr "B", Fin 5)]
                  ltac:(intros r [<-|[<-|[]]]; reflexivity))).
Defined.

(* ----------------------------------------------------------------- *)
(** ** Which choices of columns the preparation accepts *)

Section DistinctChoices.

Variable parse_float : string -> option float.

Lemma labelled_length name (cs : list (string * column)) :
  List.length (labelled name cs) = count_occ string_dec (map fst cs) name.
Proof.
  unfold labelled. induction cs as [|[n c] cs IH]; simpl; [reflexivity|].
  destruct (String.eqb_spec n name) as [->|Hne];
    destruct (string_dec _ name); try contradiction; simpl; now rewrite IH.
Qed.

Lemma convert_column_Ok cs col cs' :
  convert_column parse_float cs col = Ok cs' ->
  count_occ string_dec (map fst cs) col = 1%nat
  /\ map fst cs' = map fst cs.
Proof.
  unfold convert_column, getitem. rewrite <- labelled_length.
  destruct (labelled col cs) as [|[n c] [|q found]]; cbn [bind];
    try discriminate.
  destruct (dtype_is_object c); intros [= <-]; split; trivial.
  apply setitem_labels.
Qed.

Lemma convert_loop_Ok metrics cs cs' :
  convert_loop parse_float metrics cs = Ok cs' ->
  forall m, In m metrics -> count_occ string_dec (map fst cs) m = 1%nat.
Proof.
  revert cs. induction metrics as [|col metrics IH]; intros cs H m Hm;
    [destruct Hm|].
  simpl in H.
  destruct (convert_column parse_float cs col) as [cs1|e] eqn:E1;
    cbn [bind] in H; [|discriminate].
  apply convert_column_Ok in E1 as [Hone Hl].
  destruct Hm as [<-|Hm]; [exact Hone|].
  rewrite <- Hl. now apply (IH cs1).
Qed.

Lemma count_occ_one_NoDup (l : list string) :
  (forall x, In x l -> count_occ string_dec l x = 1%nat) -> NoDup l.
Proof.
  intros H. apply (NoDup_count_occ string_dec). intros x.
  destruct (in_dec string_dec x l) as [Hin|Hin].
  - rewrite (H x Hin). lia.
  - apply (count_occ_not_In string_dec) in Hin. lia.
Qed.

Lemma clean_present data group metrics :
  incl (group :: metrics) (columns data) ->
  (exists c, clean parse_float data group metrics = Ok c)
  \/ clean parse_float data group metrics = Raise AttributeError.
Proof.
  intros Hincl. unfold clean, prepare.
  destruct (getitem_list (cols data) (group :: metrics)) as [sel|e] eqn:Es.
  - cbn [bind].
    destruct (convert_loop_present parse_float metrics sel)
      as [[cs' [-> _]]| ->].
    + intros n Hn. apply (getitem_list_labels _ _ _ Es). now right.
    + left. cbn [bind]. eexists. reflexivity.
    + now right.
  - exfalso. pose proof (getitem_list_raises _ _ _ Es) as ->.
    apply getitem_list_key_error in Es. now apply Es.
Qed.

End DistinctChoices.

(** On data with distinct column names, and for a grouping column and
    metric columns taken among them, the preparation returns exactly when
    the chosen columns are pairwise distinct: one column chosen for two
    roles, in [school_statistics], [column_analysis] or
    [correlation_analysis] alike, makes it raise [AttributeError]. *)
Theorem clean_returns_iff_distinct (parse_float : string -> option float)
  (data : frame) (group : string) (metrics : list string) :
  NoDup (columns data) ->
  incl (group :: metrics) (columns data) ->
  ((exists c, clean parse_float data group metrics = Ok c)
   <-> NoDup (group :: metrics))
  /\ (clean parse_float data group metrics = Raise AttributeError
      <-> ~ NoDup (group :: metrics)).
Proof.
  intros Hnd Hincl.
  assert (Hret : (exists c, clean parse_float data group metrics = Ok c)
                 <-> NoDup (group :: metrics)).
  { split.
    - intros [c Hc]. unfold clean, prepare in Hc.
      destruct (getitem_list_ok (cols data) (group :: metrics) Hnd Hincl)
        as [sel [Hsel [Hfst _]]].
      rewrite Hsel in Hc. cbn [bind] in Hc.
      destruct (convert_loop parse_float metrics sel) as [cs'|e] eqn:El;
        cbn [bind] in Hc; [|discriminate].
      pose proof (convert_loop_Ok parse_float metrics sel cs' El) as Hone.
      rewrite Hfst in Hone.
      assert (Hg : ~ In group metrics).
      { intros Hin. specialize (Hone group Hin). simpl in Hone.
        destruct (string_dec group group); [|contradiction].
        assert (0 < count_occ string_dec metrics group)%nat
          by now apply count_occ_In.
        lia. }
      constructor; [exact Hg|].
      apply count_occ_one_NoDup. intros m Hm.
      specialize (Hone m Hm). simpl in Hone.
      destruct (string_dec group m) as [->|_]; [contradiction|exact Hone].
    - intros Hsel.
      destruct (prepare_ok parse_float data group metrics Hnd Hsel Hincl)
        as [sel [_ [_ [_ Hprep]]]].
      unfold clean. rewrite Hprep. cbn [bind]. eexists. reflexivity. }
  split; [exact Hret|].
  destruct (clean_present parse_float data group metrics Hincl)
    as [[c Hc]|Hc].
  - split.
    + intros H. congruence.
    + intros H. exfalso. apply H, Hret. now exists c.
  - split; [|intros _; exact Hc].
    intros _ H. apply Hret in H as [c H]. congruence.
Qed.

Lemma clean_returns_iff_distinct_witness :
  clean (fun _ => None) scenario_data "Escola" ["Pontos"; "Pontos"]
  = Raise AttributeError.
Proof.
  apply (proj2 (clean_returns_iff_distinct (fun _ => None) scenario_data
                  "Escola" ["Pontos"; "Pontos"]
                  ltac:(simpl; repeat constructor; simpl;
                        intuition discriminate)
                  ltac:(intros n [<-|[<-|[<-|[]]]]; simpl; auto))).
  intros H. inversion H as [|? ? _ H']. inversion H' as [|? ? Hn _].
  apply Hn. now left.
Defined.

(* ----------------------------------------------------------------- *)
(** ** The branch of [column_analysis] with the widgets untouched *)

Section ColumnAnalysisFacts.

Variable lower : string -> string.

Lemma existsb_ext_in {A} (f g : A -> bool) l :
  (forall x, In x l -> f x = g x) -> existsb f l = existsb g l.
Proof.
  induction l as [|x l IH]; intros H; simpl; [reflexivity|].
  rewrite (H x) by now left. f_equal. apply IH. intros y Hy. apply H.
  now right.
Qed.

Lemma keyword_loop_any keywords col :
  (forall k, In k keywords -> lower k = k) ->
  keyword_loop lower keywords (lower col) = any_keyword_in lower keywords col.
Proof.
  intros H. rewrite keyword_loop_existsb. unfold any_keyword_in.
  apply existsb_ext_in. intros k Hk. now rewrite (H k Hk).
Qed.

Lemma found_head_matches columns keywords col rest :
  (forall k, In k keywords -> lower k = k) ->
  find_similar_columns lower columns keywords = col :: rest ->
  In col columns /\ any_keyword_in lower keywords col = true.
Proof.
  intros H Hf. rewrite find_similar_columns_filter in Hf.
  assert (Hin : In col (col :: rest)) by now left.
  rewrite <- Hf in Hin. apply filter_In in Hin as [Hin Hk].
  split; [exact Hin|]. now rewrite <- keyword_loop_any.
Qed.

Lemma not_found_no_match columns keywords col :
  (forall k, In k keywords -> lower k = k) ->
  find_similar_columns lower columns keywords = [] ->
  In col columns -> any_keyword_in lower keywords col = false.
Proof.
  intros H Hf Hin. rewrite find_similar_columns_filter in Hf.
  rewrite <- keyword_loop_any by exact H.
  destruct (keyword_loop lower keywords (lower col)) eqn:E; trivial.
  assert (Hc : In col (filter (fun col => keyword_loop lower keywords
                                            (lower col)) columns))
    by (apply filter_In; now split).
  rewrite Hf in Hc. destruct Hc.
Qed.

Lemma index_nth x l :
  In x l -> exists i, index x l = Some i /\ nth_error l i = Some x.
Proof.
  induction l as [|y l IH]; [intros []|].
  intros Hin. simpl. destruct (String.eqb_spec y x) as [->|Hne].
  - exists 0%nat. split; reflexivity.
  - destruct Hin as [Heq|Hin]; [contradiction|].
    destruct (IH Hin) as [i [-> Hi]]. exists (S i). split; trivial.
Qed.

End ColumnAnalysisFacts.

(** With the select box and the multiselect left as [column_analysis]
    sets them: without a Portuguese and without a mathematics column the
    view stops at its warning; without a school column it never runs the
    analysis of grades by school; with a school column and a Portuguese or
    a mathematics column it runs that analysis, and the description names
    Portuguese, mathematics or both according to which were found.  The
    lower-casing leaves the empty text and the keywords as they are. *)
Theorem column_analysis_defaults (lower : string -> string)
  (columns : list string) :
  lower "" = "" ->
  (forall k,
      In k (escola_keywords ++ nota_lp_keywords ++ nota_mat_keywords) ->
      lower k = k) ->
  let escola := find_similar_columns lower columns escola_keywords in
  let lp := find_similar_columns lower columns nota_lp_keywords in
  let mat := find_similar_columns lower columns nota_mat_keywords in
  let branch :=
    column_analysis_branch lower (default_coluna_agrupamento lower columns)
      (default_colunas_analise lower columns) in
  (lp = [] -> mat = [] -> branch = SemSelecao)
  /\ (escola = [] -> forall d, branch <> AnalisePorEscola d)
  /\ (escola <> [] -> lp <> [] -> mat = [] ->
      branch = AnalisePorEscola "médias em Português")
  /\ (escola <> [] -> lp = [] -> mat <> [] ->
      branch = AnalisePorEscola "médias em Matemática")
  /\ (escola <> [] -> lp <> [] -> mat <> [] ->
      branch = AnalisePorEscola "médias em Português e Matemática").
Proof.
  intros Hempty Hkw. cbv zeta.
  assert (He : forall k, In k escola_keywords -> lower k = k)
    by (intros k Hk; apply Hkw; apply in_or_app; now left).
  assert (Hl : forall k, In k nota_lp_keywords -> lower k = k)
    by (intros k Hk; apply Hkw; apply in_or_app; right;
        apply in_or_app; now left).
  assert (Hm : forall k, In k nota_mat_keywords -> lower k = k)
    by (intros k Hk; apply Hkw; apply in_or_app; right;
        apply in_or_app; now right).
  unfold default_colunas_analise, default_coluna_agrupamento.
  remember (find_similar_columns lower columns escola_keywords) as escola
    eqn:Ee.
  remember (find_similar_columns lower columns nota_lp_keywords) as lp eqn:El.
  remember (find_similar_columns lower columns nota_mat_keywords) as mat
    eqn:Em.
  symmetry in Ee, El, Em.
  assert (Hschool : forall e rest, escola = e :: rest ->
            match index e columns with
            | Some i => nth_error columns i
            | None => None
            end = Some e
            /\ tem_escola lower e = true /\ e <> EmptyString).
  { intros e rest Hf. rewrite Hf in Ee.
    destruct (found_head_matches lower columns escola_keywords e rest He Ee)
      as [Hin Hk].
    destruct (index_nth e columns Hin) as [i [-> Hi]].
    split; [exact Hi|]. split; [exact Hk|].
    intros ->. unfold tem_escola, any_keyword_in in Hk.
    rewrite Hempty in Hk. discriminate Hk. }
  assert (Hfirst : escola = [] -> forall c0 rest, columns = c0 :: rest ->
                     tem_escola lower c0 = false).
  { intros Hesc c0 rest Hc. rewrite Hesc in Ee.
    apply (not_found_no_match lower columns); trivial.
    rewrite Hc. now left. }
  assert (Hlp : forall l0 lrest, lp = l0 :: lrest ->
            any_keyword_in lower nota_lp_keywords l0 = true
            /\ (mat = [] ->
                any_keyword_in lower nota_mat_keywords l0 = false)).
  { intros l0 lrest Hf. rewrite Hf in El.
    destruct (found_head_matches lower columns nota_lp_keywords l0 lrest Hl El)
      as [Hin Hk].
    split; [exact Hk|]. intros Hmat. rewrite Hmat in Em.
    now apply (not_found_no_match lower columns). }
  assert (Hmat : forall m0 mrest, mat = m0 :: mrest ->
            any_keyword_in lower nota_mat_keywords m0 = true
            /\ (lp = [] ->
                any_keyword_in lower nota_lp_keywords m0 = false)).
  { intros m0 mrest Hf. rewrite Hf in Em.
    destruct (found_head_matches lower columns nota_mat_keywords m0 mrest
                Hm Em) as [Hin Hk].
    split; [exact Hk|]. intros Hlp'. rewrite Hlp' in El.
    now apply (not_found_no_match lower columns). }
  clear Ee El Em.
  split; [|split; [|split; [|split]]].
  - intros -> ->. unfold column_analysis_branch.
    destruct (match escola with _ :: _ => _ | [] => _ end) as [[|? ?]|];
      reflexivity.
  - intros Hesc d. specialize (Hfirst Hesc). subst escola.
    destruct columns as [|c0 columns'];
      [destruct lp, mat; discriminate|].
    cbn [nth_error]. unfold column_analysis_branch.
    rewrite (Hfirst c0 columns' eq_refl).
    destruct c0; [destruct lp, mat; discriminate|].
    destruct lp, mat; cbn [firstn app andb]; discriminate.
  - intros Hesc Hlpne Hmate.
    destruct escola as [|e rest]; [congruence|].
    destruct lp as [|l0 lrest]; [congruence|].
    destruct (Hschool e rest eq_refl) as [-> [Hte Hne]].
    destruct (Hlp l0 lrest eq_refl) as [Hk Hnm]. specialize (Hnm Hmate).
    subst mat.
    cbn [firstn app]. unfold column_analysis_branch, tem_nota_lp, tem_nota_mat.
    cbn [existsb]. rewrite Hte, Hk, Hnm.
    destruct e; [congruence|reflexivity].
  - intros Hesc Hlpe Hmatne.
    destruct escola as [|e rest]; [congruence|].
    destruct mat as [|m0 mrest]; [congruence|].
    destruct (Hschool e rest eq_refl) as [-> [Hte Hne]].
    destruct (Hmat m0 mrest eq_refl) as [Hk Hnl]. specialize (Hnl Hlpe).
    subst lp.
    cbn [firstn app]. unfold column_analysis_branch, tem_nota_lp, tem_nota_mat.
    cbn [existsb]. rewrite Hte, Hk, Hnl.
    destruct e; [congruence|reflexivity].
  - intros Hesc Hlpne Hmatne.
    destruct escola as [|e rest]; [congruence|].
    destruct lp as [|l0 lrest]; [congruence|].
    destruct mat as [|m0 mrest]; [congruence|].
    destruct (Hschool e rest eq_refl) as [-> [Hte Hne]].
    destruct (Hlp l0 lrest eq_refl) as [Hkl _].
    destruct (Hmat m0 mrest eq_refl) as [Hkm _].
    cbn [firstn app]. unfold column_analysis_branch, tem_nota_lp, tem_nota_mat.
    cbn [existsb]. rewrite Hte, Hkl, Hkm.
    rewrite !orb_true_r. cbn [orb andb].
    destruct e; [congruence|reflexivity].
Qed.

Lemma column_analysis_defaults_witness :
  column_analysis_branch ascii_lower
    (default_coluna_agrupamento ascii_lower
       ["Qual a sua escola?"; "Nota LP"; "Nota MAT"])
    (default_colunas_analise ascii_lower
       ["Qual a sua escola?"; "Nota LP"; "Nota MAT"])
  = AnalisePorEscola "médias em Português e Matemática".
Proof.
  assert (Hk : forall k,
             In k (escola_keywords ++ nota_lp_keywords ++ nota_mat_keywords) ->
             ascii_lower k = k).
  { intros k Hk. simpl in Hk.
    repeat (destruct Hk as [<-|Hk]; [reflexivity|]). destruct Hk. }
  pose proof (column_analysis_defaults ascii_lower
                ["Qual a sua escola?"; "Nota LP"; "Nota MAT"] eq_refl Hk)
    as H.
  cbv zeta in H. destruct H as [_ [_ [_ [_ H]]]].
  apply H; intros E; vm_compute in E; discriminate E.
Defined.

(* ----------------------------------------------------------------- *)
(** ** What a run of [school_statistics] can end in *)

Section Outcomes.

Variable parse_float : string -> option float.

Lemma keep_length_le {A} mask (l : list A) :
  (List.length mask <= List.length l)%nat ->
  List.length (keep mask l) = List.length (filter (fun b : bool => b) mask).
Proof.
  revert l; induction mask as [|b mask IH]; intros [|y l] H; simpl in *;
    try lia; trivial.
  destruct b; simpl; rewrite IH; lia.
Qed.

Lemma getitem_Series cs name c :
  getitem cs name = Ok (Series c) -> labelled name cs = [(name, c)].
Proof.
  unfold getitem.
  destruct (labelled name cs) as [|[n c'] [|q found]] eqn:El;
    try discriminate.
  intros [= ->]. f_equal. f_equal.
  apply (labelled_labels name cs (n, c)). rewrite El. now left.
Qed.

Lemma labelled_In name (cs : list (string * column)) p :
  In p (labelled name cs) -> In p cs.
Proof. intros H. now apply filter_In in H. Qed.

Lemma labelled_map name (g : column -> column) (cs : list (string * column)) :
  labelled name (map (fun p => (fst p, g (snd p))) cs)
  = map (fun p => (fst p, g (snd p))) (labelled name cs).
Proof.
  unfold labelled. induction cs as [|[n c] cs IH]; simpl; [reflexivity|].
  destruct (String.eqb n name); simpl; now rewrite IH.
Qed.

Lemma labelled_setitem name c (cs : list (string * column)) :
  labelled name (setitem cs name c)
  = map (fun p => (fst p, c)) (labelled name cs).
Proof.
  unfold labelled, setitem. induction cs as [|[n c'] cs IH]; simpl;
    [reflexivity|].
  destruct (String.eqb n name) eqn:E; simpl; rewrite E; simpl;
    now rewrite IH.
Qed.

(** After the conversion loop over one metric, the metric labels one
    column, a numeric one. *)
Lemma convert_one_numeric cs col cs' :
  convert_loop parse_float [col] cs = Ok cs' ->
  exists vals, labelled col cs' = [(col, NumCol vals)].
Proof.
  cbn [convert_loop]. unfold convert_column.
  destruct (getitem cs col) as [[c|df]|e] eqn:Eg; cbn [bind];
    try discriminate.
  apply getitem_Series in Eg.
  destruct c as [vals|vals]; cbn [dtype_is_object bind].
  - intros [= <-]. now exists vals.
  - intros [= <-]. rewrite labelled_setitem, Eg. cbn [map fst].
    eexists. reflexivity.
Qed.

End Outcomes.

Lemma school_statistics_returns (parse_float : string -> option float)
  (nonfinite_agg : list float -> linha) (data : frame)
  (coluna_escola coluna_total_pontos : string)
  (min_alunos : Z) (escolas_filtradas : list cell) (o : outcome) :
  school_statistics parse_float nonfinite_agg data coluna_escola
    coluna_total_pontos min_alunos escolas_filtradas = Ok o ->
  o = NoValidData \/ exists shown csv, o = Shown shown csv.
Proof.
  unfold school_statistics.
  destruct (school_statistics_clean parse_float data coluna_escola
              coluna_total_pontos) as [c|e0] eqn:Ec; cbn [bind];
    [|discriminate].
  destruct (final_count c =? 0)%Z eqn:Ef; [intros [= <-]; now left|].
  apply Z.eqb_neq in Ef.
  (* the cleaned frame is a frame after [dropna] *)
  unfold school_statistics_clean, clean in Ec.
  destruct (prepare parse_float data coluna_escola [coluna_total_pontos])
    as [f|e0] eqn:Ep; cbn [bind] in Ec; [|discriminate].
  injection Ec as <-. cbn [final_count data_clean] in *.
  unfold prepare in Ep.
  destruct (getitem_list (cols data) [coluna_escola; coluna_total_pontos])
    as [sel|e0]; cbn [bind] in Ep; [|discriminate].
  destruct (convert_loop parse_float [coluna_total_pontos] sel)
    as [conv|e0] eqn:El; cbn [bind] in Ep; [|discriminate].
  injection Ep as <-.
  set (f := {| index_len := index_len data; cols := conv |}) in *.
  destruct (convert_one_numeric parse_float sel coluna_total_pontos conv El)
    as [vals Hvals].
  set (mask := row_mask (index_len f) (cols f)).
  assert (Hmetric : getitem (cols (dropna f)) coluna_total_pontos
                    = Ok (Series (NumCol (keep mask vals)))).
  { unfold getitem, dropna. cbn [cols]. fold mask.
    rewrite (labelled_map coluna_total_pontos (keep_column mask)).
    change (cols f) with conv. rewrite Hvals. reflexivity. }
  rewrite Hmetric.
  destruct (getitem (cols (dropna f)) coluna_escola) as [[escolas|df]|e0]
    eqn:Eg; cbn [bind]; try discriminate.
  (* the school column of the cleaned frame has a row, with a school *)
  apply getitem_Series in Eg.
  assert (Hin : In (coluna_escola, escolas) (cols (dropna f))).
  { apply (labelled_In coluna_escola). rewrite Eg. now left. }
  pose proof (fun v => dropna_no_missing f coluna_escola escolas v Hin)
    as Hpresent.
  unfold dropna in Hin. cbn [cols] in Hin. fold mask in Hin.
  apply in_map_iff in Hin as [[n c0] [Heq Hc0]].
  cbn [fst snd] in Heq. injection Heq as -> <-.
  assert (Hlen : List.length (column_cells (keep_column mask c0))
                 = List.length (filter (fun b : bool => b) mask)).
  { rewrite column_cells_keep. apply keep_length_le.
    pose proof (mask_within_length _ _
                  (row_mask_within_column (index_len f) (cols f)
                     coluna_escola c0 Hc0)) as Hle.
    fold mask in Hle. unfold notna_mask in Hle.
    now rewrite length_map in Hle. }
  assert (Hpos : List.length (filter (fun b : bool => b) mask) <> 0%nat).
  { intros H0. apply Ef. unfold len, dropna. cbn [index_len].
    fold mask. now rewrite H0. }
  destruct (column_cells (keep_column mask c0)) as [|x labels] eqn:Ecells.
  { simpl in Hlen. congruence. }
  assert (Hx : isna x = false) by (apply Hpresent; now left).
  cbn [filter]. rewrite Hx. cbn [negb unique List.length Nat.eqb].
  intros [= <-]. right. eexists. eexists. reflexivity.
Qed.

(** The message that there is no school to analyse (lines 144-146) is
    never reached: a cleaned frame with a row has a school in that row.
    And the run ends at "no valid data" exactly when the preparation
    returns and leaves no row. *)
Theorem school_statistics_outcomes (parse_float : string -> option float)
  (nonfinite_agg : list float -> linha) (data : frame)
  (coluna_escola coluna_total_pontos : string)
  (min_alunos : Z) (escolas_filtradas : list cell) :
  school_statistics parse_float nonfinite_agg data coluna_escola
    coluna_total_pontos min_alunos escolas_filtradas <> Ok NoSchools
  /\ (school_statistics parse_float nonfinite_agg data coluna_escola
        coluna_total_pontos min_alunos escolas_filtradas = Ok NoValidData
      <-> exists c,
            school_statistics_clean parse_float data coluna_escola
              coluna_total_pontos = Ok c
            /\ final_count c = 0%Z).
Proof.
  pose proof (school_statistics_returns parse_float nonfinite_agg data
                coluna_escola coluna_total_pontos min_alunos
                escolas_filtradas) as Hret.
  split.
  - intros H. destruct (Hret _ H) as [H'|[? [? H']]]; discriminate H'.
  - clear Hret. unfold school_statistics.
    destruct (school_statistics_clean parse_float data coluna_escola
                coluna_total_pontos) as [c|e0]; cbn [bind].
    2:{ split; [intros H; discriminate H|intros [? [H _]]; discriminate H]. }
    destruct (final_count c =? 0)%Z eqn:Ef.
    + apply Z.eqb_eq in Ef. split; [intros _; now exists c|reflexivity].
    + apply Z.eqb_neq in Ef. split.
      * intros H. exfalso.
        destruct (getitem (cols (data_clean c)) coluna_escola)
          as [[escolas|df]|e0]; cbn [bind] in H; try discriminate H.
        destruct (List.length _ =? 0)%nat; [discriminate H|].
        destruct (getitem (cols (data_clean c)) coluna_total_pontos)
          as [[[v|v]|df]|e0]; discriminate H.
      * intros [c' [[= <-] H0]]. contradiction.
Qed.

(* ----------------------------------------------------------------- *)
(** ** Cleaning what is already clean *)

Section CleanAgain.

Variable parse_float : string -> option float.

Lemma and_mask_true n : and_mask (repeat true n) (repeat true n) = repeat true n.
Proof. induction n as [|n IH]; simpl; [reflexivity|now rewrite IH]. Qed.

Lemma notna_all_present c :
  (forall v, In v (column_cells c) -> isna v = false) ->
  notna_mask c = repeat true (List.length (column_cells c)).
Proof.
  unfold notna_mask. induction (column_cells c) as [|v l IH]; intros H;
    simpl; [reflexivity|].
  rewrite (H v) by now left. simpl. f_equal. apply IH.
  intros w Hw. apply H. now right.
Qed.

Lemma row_mask_all_present n cs :
  (forall name c, In (name, c) cs -> notna_mask c = repeat true n) ->
  row_mask n cs = repeat true n.
Proof.
  unfold row_mask. induction cs as [|[name c] cs IH]; intros H; simpl;
    [reflexivity|].
  rewrite IH by (intros name' c' Hin; apply (H name'); now right).
  rewrite (H name c) by now left. apply and_mask_true.
Qed.

Lemma keep_all_true {A} (l : list A) : keep (repeat true (List.length l)) l = l.
Proof. induction l as [|x l IH]; simpl; [reflexivity|now rewrite IH]. Qed.

Lemma filter_id_repeat n :
  List.length (filter (fun b : bool => b) (repeat true n)) = n.
Proof. induction n as [|n IH]; simpl; [reflexivity|now rewrite IH]. Qed.

Lemma keep_column_all_true c :
  keep_column (repeat true (List.length (column_cells c))) c = c.
Proof.
  destruct c as [vals|vals]; simpl.
  - rewrite length_map. now rewrite keep_all_true.
  - now rewrite keep_all_true.
Qed.

(** A frame that is rectangular and has no missing value is left as it is
    by [dropna]. *)
Lemma dropna_fixpoint h :
  well_formed h -> no_missing (cols h) -> dropna h = h.
Proof.
  destruct h as [n cs]. unfold well_formed, dropna. cbn [index_len cols].
  intros Hwf Hpresent.
  assert (Hmask : row_mask n cs = repeat true n).
  { apply row_mask_all_present. intros name c Hin.
    rewrite <- (Hwf name c Hin). apply notna_all_present.
    intros v Hv. now apply (Hpresent name c). }
  rewrite Hmask, filter_id_repeat. f_equal.
  transitivity (map (fun p : string * column => p) cs); [|apply map_id].
  apply map_ext_in. intros [name c] Hin. cbn [fst snd]. f_equal.
  rewrite <- (Hwf name c Hin). apply keep_column_all_true.
Qed.

(** After [dropna] every column has one value per row that is left. *)
Lemma dropna_well_formed f : well_formed (dropna f).
Proof.
  intros name c Hin. unfold dropna in *. cbn [cols index_len] in *.
  apply in_map_iff in Hin as [[n c0] [Heq Hc0]].
  cbn [fst snd] in Heq. injection Heq as -> <-.
  rewrite column_cells_keep. apply keep_length_le.
  pose proof (mask_within_length _ _
                (row_mask_within_column (index_len f) (cols f) name c0 Hc0))
    as Hle.
  unfold notna_mask in Hle. now rewrite length_map in Hle.
Qed.

Lemma incl_same_labels (sel cs : list (string * column)) :
  NoDup (map fst cs) -> incl sel cs -> map fst sel = map fst cs -> sel = cs.
Proof.
  revert sel. induction cs as [|q cs IH]; intros [|p sel] Hnd Hincl Hl;
    try discriminate; trivial.
  cbn [map] in Hl, Hnd. injection Hl as Hp Hl.
  inversion Hnd as [|? ? Hnotin Hnd']; subst.
  assert (Hpq : p = q).
  { destruct (Hincl p (or_introl eq_refl)) as [Heq|Hin]; [now symmetry|].
    exfalso. apply Hnotin. rewrite <- Hp. now apply in_map. }
  subst p. f_equal. apply IH; trivial.
  intros x Hx. destruct (Hincl x (or_intror Hx)) as [Heq|Hin]; trivial.
  exfalso. apply Hnotin. rewrite <- Hl, Heq. now apply in_map.
Qed.

Lemma converted_kept metrics mask cs :
  converted parse_float metrics
    (map (fun p => (fst p, keep_column mask (snd p)))
       (converted parse_float metrics cs))
  = map (fun p => (fst p, keep_column mask (snd p)))
      (converted parse_float metrics cs).
Proof.
  unfold converted. rewrite !map_map. apply map_ext. intros [name c].
  cbn [fst snd].
  destruct (existsb (String.eqb name) metrics) eqn:E; cbn [fst snd];
    rewrite E; [|reflexivity].
  f_equal. unfold to_numeric_coerce at 2. cbn [keep_column].
  apply to_numeric_coerce_numeric.
Qed.

End CleanAgain.

(** Cleaning is idempotent: on data with distinct column names and
    distinct chosen columns, preparing the cleaned frame again with the
    same choice returns the same frame and reports that no row was
    removed. *)
Theorem clean_again_changes_nothing (parse_float : string -> option float)
  (data : frame) (group : string) (metrics : list string) (c : cleaning) :
  NoDup (columns data) ->
  NoDup (group :: metrics) ->
  incl (group :: metrics) (columns data) ->
  clean parse_float data group metrics = Ok c ->
  clean parse_float (data_clean c) group metrics
  = Ok {| data_clean := data_clean c;
          initial_count := final_count c;
          final_count := final_count c;
          removed_count := 0 |}.
Proof.
  intros Hnd Hsel Hincl Hc.
  destruct (prepare_ok parse_float data group metrics Hnd Hsel Hincl)
    as [sel [_ [Hfst [_ Hprep]]]].
  unfold clean in Hc. rewrite Hprep in Hc. cbn [bind] in Hc.
  injection Hc as <-. cbn [data_clean final_count].
  set (f := {| index_len := index_len data;
               cols := converted parse_float metrics sel |}).
  assert (Hcols : columns (dropna f) = group :: metrics).
  { rewrite dropna_columns. unfold columns, f. cbn [cols].
    now rewrite converted_labels. }
  destruct (prepare_ok parse_float (dropna f) group metrics)
    as [sel' [_ [Hfst' [Hsub' Hprep']]]].
  { now rewrite Hcols. }
  { exact Hsel. }
  { rewrite Hcols. apply incl_refl. }
  assert (Hsame : sel' = cols (dropna f)).
  { apply incl_same_labels; trivial.
    - fold (columns (dropna f)). now rewrite Hcols.
    - fold (columns (dropna f)). now rewrite Hcols. }
  unfold clean. rewrite Hprep', Hsame. cbn [bind].
  assert (Hconv : converted parse_float metrics (cols (dropna f))
                  = cols (dropna f)).
  { unfold dropna, f. cbn [cols index_len]. apply converted_kept. }
  rewrite Hconv.
  change {| index_len := index_len (dropna f); cols := cols (dropna f) |}
    with (dropna f).
  rewrite (dropna_fixpoint (dropna f))
    by (apply dropna_well_formed || apply dropna_no_missing).
  f_equal. f_equal. lia.
Qed.

Lemma clean_again_changes_nothing_witness :
  exists c,
    clean (fun _ => None)
      {| index_len := 3;
         cols := [("Escola", ObjCol [CStr "A"; CStr "B"; CNum NaN]);
                  ("Pontos", ObjCol [CStr "abc"; CNum (Fin 7); CNum (Fin 5)])] |}
      "Escola" ["Pontos"] = Ok c
    /\ clean (fun _ => None) (data_clean c) "Escola" ["Pontos"]
       = Ok {| data_clean := data_clean c;
               initial_count := final_count c;
               final_count := final_count c;
               removed_count := 0 |}.
Proof.
  eexists. split; [reflexivity|].
  apply (clean_again_changes_nothing (fun _ => None)
           {| index_len := 3;
              cols := [("Escola", ObjCol [CStr "A"; CStr "B"; CNum NaN]);
                       ("Pontos",
                        ObjCol [CStr "abc"; CNum (Fin 7); CNum (Fin 5)])] |}
           "Escola" ["Pontos"]).
  - simpl. repeat constructor; simpl; intuition discriminate.
  - repeat constructor; simpl; intuition discriminate.
  - intros n [<-|[<-|[]]]; simpl; auto.
  - reflexivity.
Defined.

(* ----------------------------------------------------------------- *)
(** ** Missing values and removed rows *)

Lemma and_mask_false_count a b :
  (List.length (filter negb (and_mask a b))
   <= List.length (filter negb a) + List.length (filter negb b))%nat.
Proof.
  revert b; induction a as [|x a IH]; intros [|y b]; simpl; try lia.
  specialize (IH b). destruct x, y; simpl; lia.
Qed.

Lemma and_mask_length a b :
  List.length (and_mask a b) = Nat.min (List.length a) (List.length b).
Proof.
  revert b; induction a as [|x a IH]; intros [|y b]; simpl; trivial.
  now rewrite IH.
Qed.

Lemma mask_split (m : list bool) :
  List.length m
  = (List.length (filter (fun b : bool => b) m)
     + List.length (filter negb m))%nat.
Proof. induction m as [|[] m IH]; simpl; lia. Qed.

Lemma notna_false_count c :
  List.length (filter negb (notna_mask c))
  = List.length (filter isna (column_cells c)).
Proof.
  unfold notna_mask. induction (column_cells c) as [|v l IH]; simpl;
    [reflexivity|].
  destruct (isna v); simpl; now rewrite IH.
Qed.

Lemma row_mask_false_count n cs :
  (List.length (filter negb (row_mask n cs))
   <= fold_right Nat.add 0
        (map (fun p => List.length (filter isna (column_cells (snd p)))) cs))%nat.
Proof.
  unfold row_mask. induction cs as [|[name c] cs IH]; simpl.
  - induction n as [|n IHn]; simpl; lia.
  - pose proof (and_mask_false_count (notna_mask c)
                  (fold_right (fun p m => and_mask (notna_mask (snd p)) m)
                     (repeat true n) cs)) as H.
    rewrite notna_false_count in H. lia.
Qed.

Lemma row_mask_length f :
  well_formed f -> List.length (row_mask (index_len f) (cols f)) = index_len f.
Proof.
  destruct f as [n cs]. unfold well_formed, row_mask. cbn [index_len cols].
  induction cs as [|[name c] cs IH]; intros Hwf; simpl.
  - apply repeat_length.
  - rewrite and_mask_length, IH
      by (intros name' c' Hin; apply (Hwf name'); now right).
    unfold notna_mask. rewrite length_map, (Hwf name c) by now left.
    apply Nat.min_id.
Qed.

Lemma valores_nulos_zero_iff f :
  valores_nulos f = 0%nat <-> no_missing (cols f).
Proof.
  unfold valores_nulos, no_missing. induction (cols f) as [|[name c] cs IH];
    simpl.
  - split; [intros _ ? ? ? []|reflexivity].
  - split.
    + intros H name' c' v [[= <- <-]|Hin] Hv.
      * destruct (isna v) eqn:E; trivial.
        assert (Hf : In v (filter isna (column_cells c)))
          by (apply filter_In; now split).
        destruct (filter isna (column_cells c)); [destruct Hf|].
        simpl in H. lia.
      * assert (H0 : fold_right Nat.add 0%nat
                       (map (fun p => List.length
                                        (filter isna (column_cells (snd p))))
                          cs) = 0%nat) by lia.
        apply (proj1 IH H0 name' c' v Hin Hv).
    + intros H.
      assert (Hc : filter isna (column_cells c) = []).
      { destruct (filter isna (column_cells c)) as [|v l] eqn:E; trivial.
        assert (Hv : In v (filter isna (column_cells c)))
          by (rewrite E; now left).
        apply filter_In in Hv as [Hv Hna].
        rewrite (H name c v) in Hna; [discriminate|now left|exact Hv]. }
      rewrite Hc. simpl. apply IH.
      intros name' c' v Hin Hv. apply (H name' c' v); [now right|exact Hv].
Qed.

(** "Valores nulos" against [dropna], on a frame whose columns all have
    one value per row: [dropna] never removes more rows than the frame has
    missing values; it removes none, and changes nothing, when the count
    is zero; and the count of what it returns is zero. *)
Theorem valores_nulos_bound_removed_rows (f : frame) :
  well_formed f ->
  (len f - len (dropna f) <= Z.of_nat (valores_nulos f))%Z
  /\ (valores_nulos f = 0%nat -> dropna f = f)
  /\ valores_nulos (dropna f) = 0%nat.
Proof.
  intros Hwf. split; [|split].
  - unfold len, dropna. cbn [index_len].
    pose proof (row_mask_length f Hwf) as Hlen.
    pose proof (mask_split (row_mask (index_len f) (cols f))) as Hsplit.
    pose proof (row_mask_false_count (index_len f) (cols f)) as Hcount.
    unfold valores_nulos. lia.
  - intros H0. apply dropna_fixpoint; [exact Hwf|].
    now apply valores_nulos_zero_iff.
  - apply valores_nulos_zero_iff, dropna_no_missing.
Qed.

Lemma valores_nulos_bound_removed_rows_witness :
  (len scenario_data - len (dropna scenario_data)
   <= Z.of_nat (valores_nulos scenario_data))%Z
  /\ (valores_nulos scenario_data = 0%nat
      -> dropna scenario_data = scenario_data)
  /\ valores_nulos (dropna scenario_data) = 0%nat.
Proof.
  apply (valores_nulos_bound_removed_rows scenario_data).
  intros name c [[= <- <-]|[[= <- <-]|[]]]; reflexivity.
Defined.

(* ----------------------------------------------------------------- *)
(** ** Schools by size *)

Lemma quantidade_alunos_positive rows q :
  (forall r, In r rows -> isnan (snd r) = false) ->
  In q (quantidade_alunos rows) -> (1 <= q)%Z.
Proof.
  intros Hnan Hq. unfold quantidade_alunos in Hq.
  apply in_map_iff in Hq as [key [<- Hkey]].
  apply group_keys_In in Hkey.
  pose proof (group_values_nonempty rows key Hkey) as Hne.
  assert (Hp : present (group_values rows key) = group_values rows key).
  { apply filter_all_iff. intros v Hv. unfold group_values in Hv.
    apply in_map_iff in Hv as [r [<- Hr]]. apply filter_In in Hr as [Hr _].
    now rewrite (Hnan r Hr). }
  rewrite Hp. destruct (group_values rows key); [congruence|simpl; lia].
Qed.

Lemma filter_cons_length {A} (f : A -> bool) x l :
  List.length (filter f (x :: l))
  = ((if f x then 1 else 0) + List.length (filter f l))%nat.
Proof. simpl. now destruct (f x). Qed.

Lemma tem_tamanho_one q :
  (1 <= q)%Z ->
  ((if tem_tamanho "Pequena (≤50)" q then 1 else 0)
   + (if tem_tamanho "Média (51-100)" q then 1 else 0)
   + (if tem_tamanho "Grande (101-200)" q then 1 else 0)
   + (if tem_tamanho "Muito Grande (>200)" q then 1 else 0))%nat = 1%nat.
Proof.
  intros Hq. unfold tem_tamanho, tamanho_escola.
  destruct (q <=? 0)%Z eqn:E0; [apply Z.leb_le in E0; lia|].
  destruct (q <=? 50)%Z; [reflexivity|].
  destruct (q <=? 100)%Z; [reflexivity|].
  destruct (q <=? 200)%Z; reflexivity.
Qed.

Lemma dist_tamanho_sum (qs : list Z) :
  (forall q, In q qs -> (1 <= q)%Z) ->
  (dist_tamanho qs "Pequena (≤50)" + dist_tamanho qs "Média (51-100)"
   + dist_tamanho qs "Grande (101-200)"
   + dist_tamanho qs "Muito Grande (>200)")%nat
  = List.length qs.
Proof.
  unfold dist_tamanho. induction qs as [|q qs IH]; intros H;
    [reflexivity|].
  assert (Hq : (1 <= q)%Z) by (apply H; now left).
  specialize (IH (fun q' Hq' => H q' (or_intror Hq'))).
  rewrite !filter_cons_length. cbn [List.length].
  pose proof (tem_tamanho_one q Hq). lia.
Qed.

(** Every school of a cleaned frame has at least one student and so falls
    in one of the four sizes; the four numbers of the size chart add up to
    the number of schools; and each label says what its interval is:
    "Pequena (≤50)" is 1 to 50 students, "Média (51-100)" 51 to 100,
    "Grande (101-200)" 101 to 200, "Muito Grande (>200)" more than 200. *)
Theorem tamanho_escola_covers_schools (rows : list (cell * float)) :
  (forall r, In r rows -> isnan (snd r) = false) ->
  (forall q, In q (quantidade_alunos rows) ->
     (1 <= q)%Z
     /\ exists t, tamanho_escola q = Some t /\ In t tamanhos)
  /\ (dist_tamanho (quantidade_alunos rows) "Pequena (≤50)"
      + dist_tamanho (quantidade_alunos rows) "Média (51-100)"
      + dist_tamanho (quantidade_alunos rows) "Grande (101-200)"
      + dist_tamanho (quantidade_alunos rows) "Muito Grande (>200)")%nat
     = List.length (group_keys rows)
  /\ (forall q : Z,
        (tamanho_escola q = Some "Pequena (≤50)" <-> 1 <= q <= 50)%Z
        /\ (tamanho_escola q = Some "Média (51-100)" <-> 51 <= q <= 100)%Z
        /\ (tamanho_escola q = Some "Grande (101-200)"
            <-> 101 <= q <= 200)%Z
        /\ (tamanho_escola q = Some "Muito Grande (>200)" <-> 200 < q)%Z
        /\ (tamanho_escola q = None <-> q <= 0)%Z).
Proof.
  intros Hnan. split; [|split].
  - intros q Hq.
    pose proof (quantidade_alunos_positive rows q Hnan Hq) as Hpos.
    split; [exact Hpos|]. unfold tamanho_escola, tamanhos.
    destruct (q <=? 0)%Z eqn:E0; [apply Z.leb_le in E0; lia|].
    destruct (q <=? 50)%Z; [eexists; split; [reflexivity|simpl; tauto]|].
    destruct (q <=? 100)%Z; [eexists; split; [reflexivity|simpl; tauto]|].
    destruct (q <=? 200)%Z; eexists; (split; [reflexivity|simpl; tauto]).
  - rewrite dist_tamanho_sum.
    + unfold quantidade_alunos. apply length_map.
    + intros q Hq. now apply (quantidade_alunos_positive rows).
  - intros q. unfold tamanho_escola.
    destruct (q <=? 0)%Z eqn:E0;
      [apply Z.leb_le in E0|apply Z.leb_gt in E0].
    { repeat split; intros; try discriminate; try lia. }
    destruct (q <=? 50)%Z eqn:E1;
      [apply Z.leb_le in E1|apply Z.leb_gt in E1].
    { repeat split; intros; try discriminate; try lia. }
    destruct (q <=? 100)%Z eqn:E2;
      [apply Z.leb_le in E2|apply Z.leb_gt in E2].
    { repeat split; intros; try discriminate; try lia. }
    destruct (q <=? 200)%Z eqn:E3;
      [apply Z.leb_le in E3|apply Z.leb_gt in E3];
      repeat split; intros; try discriminate; try lia.
Qed.

Lemma tamanho_escola_covers_schools_witness :
  (dist_tamanho (quantidade_alunos [(CStr "A", Fin 10); (CStr "B", Fin 5)])
     "Pequena (≤50)"
   + dist_tamanho (quantidade_alunos [(CStr "A", Fin 10); (CStr "B", Fin 5)])
       "Média (51-100)"
   + dist_tamanho (quantidade_alunos [(CStr "A", Fin 10); (CStr "B", Fin 5)])
       "Grande (101-200)"
   + dist_tamanho (quantidade_alunos [(CStr "A", Fin 10); (CStr "B", Fin 5)])
       "Muito Grande (>200)")%nat
  = List.length (group_keys [(CStr "A", Fin 10); (CStr "B", Fin 5)]).
Proof.
  apply (proj1 (proj2 (tamanho_escola_covers_schools
                         [(CStr "A", Fin 10); (CStr "B", Fin 5)]
                         ltac:(intros r [<-|[<-|[]]]; reflexivity)))).
Defined.

(* ----------------------------------------------------------------- *)
(** ** The order of the statistics table *)

Lemma float_geb_total a b : float_geb a b = true \/ float_geb b a = true.
Proof.
  destruct a as [x| | |], b as [y| | |]; simpl; auto.
  destruct (Rle_dec x y) as [H|H].
  - right. apply Rleb_true_iff. exact H.
  - left. apply Rleb_true_iff. lra.
Qed.

Lemma float_geb_trans a b c :
  float_geb a b = true -> float_geb b c = true -> float_geb a c = true.
Proof.
  destruct a as [x| | |], b as [y| | |], c as [z| | |]; simpl;
    try discriminate; try reflexivity.
  rewrite !Rleb_true_iff. lra.
Qed.

Lemma insert_by_ordered {A} (leb : A -> A -> bool) x l :
  (forall a b, leb a b = true \/ leb b a = true) ->
  (forall a b c, leb a b = true -> leb b c = true -> leb a c = true) ->
  ordered_by leb l -> ordered_by leb (insert_by leb x l).
Proof.
  intros Htotal Htrans. induction 1 as [|y l Hy Hl IH]; simpl.
  - constructor; [intros ? []|constructor].
  - destruct (leb x y) eqn:E.
    + constructor; [|now constructor].
      intros z [<-|Hz]; [exact E|]. apply (Htrans x y z); auto.
    + constructor; [|exact IH].
      intros z Hz. apply (Permutation_in _ (insert_by_perm leb x l)) in Hz.
      destruct Hz as [<-|Hz]; [|now apply Hy].
      destruct (Htotal x y) as [H|H]; [congruence|exact H].
Qed.

Lemma sort_by_ordered {A} (leb : A -> A -> bool) l :
  (forall a b, leb a b = true \/ leb b a = true) ->
  (forall a b c, leb a b = true -> leb b c = true -> leb a c = true) ->
  ordered_by leb (sort_by leb l).
Proof.
  intros Htotal Htrans. induction l as [|x l IH]; simpl; [constructor|].
  now apply insert_by_ordered.
Qed.

Lemma ordered_by_split {A} (leb : A -> A -> bool) pre a post b :
  ordered_by leb (pre ++ a :: post) -> In b post -> leb a b = true.
Proof.
  induction pre as [|p pre IH]; simpl; intros H Hb.
  - inversion H as [|? ? Hall _]; subst. now apply Hall.
  - inversion H; subst. now apply IH.
Qed.

(** The statistics table is in descending order of its (rounded) means:
    a row stands before every row of a smaller or equal mean that follows
    it, and the rows whose mean is NaN come last. *)
Theorem estatisticas_sorted_by_media (nonfinite_agg : list float -> linha)
  (rows : list (cell * float)) :
  ordered_by (fun a b => float_geb (Media a) (Media b))
    (estatisticas_escolas_reset nonfinite_agg rows)
  /\ (forall pre a post b,
        estatisticas_escolas_reset nonfinite_agg rows = pre ++ a :: post ->
        In b post ->
        (forall x y, Media a = Fin x -> Media b = Fin y -> (y <= x)%R)
        /\ (Media a = NaN -> Media b = NaN)).
Proof.
  assert (Hord : ordered_by (fun a b => float_geb (Media a) (Media b))
                   (estatisticas_escolas_reset nonfinite_agg rows)).
  { unfold estatisticas_escolas_reset. apply sort_by_ordered.
    - intros a b. apply float_geb_total.
    - intros a b c. apply float_geb_trans. }
  split; [exact Hord|].
  intros pre a post b Heq Hb. rewrite Heq in Hord.
  pose proof (ordered_by_split _ pre a post b Hord Hb) as Hge.
  cbn beta in Hge. split.
  - intros x y Ha Hy. rewrite Ha, Hy in Hge. simpl in Hge.
    now apply Rleb_true_iff.
  - intros Ha. rewrite Ha in Hge. now destruct (Media b).
Qed.

(* ----------------------------------------------------------------- *)
(** ** The renaming of the aggregated columns *)

Lemma dict_get_set {V} (d : list (string * V)) k v k' :
  dict_get (dict_set d k v) k'
  = if String.eqb k k' then Some v else dict_get d k'.
Proof.
  induction d as [|[k0 v0] d IH]; simpl.
  - reflexivity.
  - destruct (String.eqb_spec k0 k) as [->|Hne]; simpl.
    + destruct (String.eqb k k'); reflexivity.
    + rewrite IH. destruct (String.eqb_spec k0 k') as [->|Hne'].
      * destruct (String.eqb_spec k k'); [congruence|reflexivity].
      * reflexivity.
Qed.

Lemma inner_loop_get (P : string -> bool) (v : string) columns d k :
  In k columns ->
  dict_get
    (fold_left (fun d col => if P col then dict_set d col v else d) columns d)
    k
  = if P k then Some v else dict_get d k.
Proof.
  assert (Hgen : forall cs d,
    dict_get
      (fold_left (fun d col => if P col then dict_set d col v else d) cs d) k
    = if existsb (fun col => P col && String.eqb col k) cs
      then Some v else dict_get d k).
  { induction cs as [|c cs IH]; intros d'; simpl; [reflexivity|].
    rewrite IH. destruct (existsb _ cs); [now rewrite orb_true_r|].
    rewrite orb_false_r. destruct (P c); simpl; [|reflexivity].
    now rewrite dict_get_set. }
  intros Hin. rewrite Hgen.
  destruct (P k) eqn:Ek.
  - assert (Hex : existsb (fun col => P col && String.eqb col k) columns
                  = true).
    { apply existsb_exists. exists k. split; [exact Hin|].
      now rewrite Ek, String.eqb_refl. }
    now rewrite Hex.
  - assert (Hex : existsb (fun col => P col && String.eqb col k) columns
                  = false).
    { destruct (existsb _ columns) eqn:E; trivial.
      apply existsb_exists in E as [c [_ Hc]].
      apply andb_prop in Hc as [Hp He]. apply String.eqb_eq in He.
      congruence. }
    now rewrite Hex.
Qed.

Lemma find_snoc {A} (P : A -> bool) l x :
  find P (l ++ [x])
  = match find P l with
    | Some y => Some y
    | None => if P x then Some x else None
    end.
Proof.
  induction l as [|y l IH]; simpl; [reflexivity|].
  destruct (P y); [reflexivity|exact IH].
Qed.

Lemma outer_loop_get columns metrics d k :
  In k columns ->
  dict_get
    (fold_left
       (fun d coluna =>
          fold_left
            (fun d col =>
               if contains (coluna ++ "_mean") col
               then dict_set d col ("Media_" ++ coluna)%string
               else d)
            columns d)
       metrics d) k
  = match find (fun coluna => contains (coluna ++ "_mean") k) (rev metrics) with
    | Some coluna => Some ("Media_" ++ coluna)%string
    | None => dict_get d k
    end.
Proof.
  intros Hin. revert d. induction metrics as [|m ms IH]; intros d;
    cbn [fold_left rev]; [reflexivity|].
  rewrite IH, find_snoc.
  destruct (find _ (rev ms)); [reflexivity|].
  rewrite (inner_loop_get (fun col => contains (m ++ "_mean") col)
             ("Media_" ++ m)%string columns d k Hin).
  now destruct (contains (m ++ "_mean") k).
Qed.

Lemma rename_dict_get coluna_escola colunas_desempenho columns col :
  In col columns ->
  match dict_get (rename_dict coluna_escola colunas_desempenho columns) col
  with
  | Some novo => novo
  | None => col
  end
  = novo_nome coluna_escola colunas_desempenho columns col.
Proof.
  intros Hin.
  unfold rename_dict, novo_nome. rewrite (outer_loop_get columns _ _ col Hin).
  destruct (find _ (rev colunas_desempenho)); [reflexivity|].
  destruct (primeira_count columns) as [c|].
  - rewrite dict_get_set. destruct (String.eqb c col); [reflexivity|].
    simpl. now destruct (String.eqb coluna_escola col).
  - simpl. now destruct (String.eqb coluna_escola col).
Qed.

(** The two loops that fill [rename_dict], with later entries replacing
    earlier ones, come to this for every column of the frame: the last
    metric of [colunas_desempenho] whose text [<metric>_mean] occurs in
    the column names it [Media_<metric>]; a column no metric claims is
    [Quantidade_Alunos] if it is the first one that holds ["_count"],
    [Escola] if it is the school column, and keeps its name otherwise.
    So of two metrics of which one ends with the other, as "Pontos" and
    "Total Pontos", the one listed last names both mean columns. *)
Theorem rename_last_pattern_wins (coluna_escola : string)
  (colunas_desempenho columns : list string) :
  rename columns (rename_dict coluna_escola colunas_desempenho columns)
  = map (novo_nome coluna_escola colunas_desempenho columns) columns
  /\ medias_por_escola_columns (fun s => s) "Escola"
       ["Total Pontos"; "Pontos"]
     = ["Escola"; "Quantidade_Alunos"; "Media_Pontos"; "Media_Pontos"].
Proof.
  split.
  - unfold rename. apply map_ext_in. intros col Hin.
    now apply rename_dict_get.
  - reflexivity.
Qed.

Section RenameFacts.

Variable strip : string -> string.

Lemma string_app_nil_r (s : string) : (s ++ "")%string = s.
Proof. induction s as [|a s IH]; simpl; [reflexivity|now rewrite IH]. Qed.

Lemma contains_self s : contains s s = true.
Proof.
  apply contains_true_iff. exists ""%string, ""%string.
  simpl. now rewrite string_app_nil_r.
Qed.

Lemma contains_suffix pre s : contains s (pre ++ s) = true.
Proof.
  apply contains_true_iff. exists pre, ""%string.
  now rewrite string_app_nil_r.
Qed.

Lemma prefix_append s t : String.prefix s (s ++ t) = true.
Proof. apply prefix_true_iff. now exists t. Qed.

Lemma dict_set_fresh {V} (d : list (string * V)) k v :
  ~ In k (map fst d) -> dict_set d k v = d ++ [(k, v)].
Proof.
  induction d as [|[k0 v0] d IH]; simpl; intros H; [reflexivity|].
  destruct (String.eqb_spec k0 k) as [->|Hne]; [exfalso; apply H; now left|].
  f_equal. apply IH. intros Hin. apply H. now right.
Qed.

Lemma fold_dict_set_fresh {V} (v : V) ms (d : list (string * V)) :
  NoDup ms -> (forall m, In m ms -> ~ In m (map fst d)) ->
  fold_left (fun d coluna => dict_set d coluna v) ms d
  = d ++ map (fun m => (m, v)) ms.
Proof.
  revert d. induction ms as [|m ms IH]; intros d Hnd Hfresh; simpl.
  - now rewrite app_nil_r.
  - inversion Hnd as [|? ? Hnotin Hnd']; subst.
    rewrite dict_set_fresh by (apply Hfresh; now left).
    rewrite IH; trivial.
    + now rewrite <- app_assoc.
    + intros m' Hm'. rewrite map_app, in_app_iff. simpl.
      intros [H|[H|[]]].
      * apply (Hfresh m'); [now right|exact H].
      * subst. contradiction.
Qed.

Lemma agg_dict_distinct primeira resto :
  NoDup (primeira :: resto) ->
  agg_dict (primeira :: resto)
  = (primeira, ["count"; "mean"]) :: map (fun m => (m, ["mean"])) resto.
Proof.
  intros Hnd. unfold agg_dict.
  rewrite fold_dict_set_fresh by (trivial; intros m _ []).
  simpl. now rewrite String.eqb_refl.
Qed.

Lemma find_unique {A} (P : A -> bool) l x :
  In x l -> P x = true -> (forall y, In y l -> P y = true -> y = x) ->
  find P l = Some x.
Proof.
  induction l as [|y l IH]; intros Hin Hx Huniq; [destruct Hin|].
  simpl. destruct (P y) eqn:Ey.
  - f_equal. apply Huniq; [now left|exact Ey].
  - destruct Hin as [->|Hin]; [congruence|].
    apply IH; trivial. intros z Hz. apply Huniq. now right.
Qed.

Lemma find_none {A} (P : A -> bool) l :
  (forall y, In y l -> P y = false) -> find P l = None.
Proof.
  induction l as [|y l IH]; intros H; simpl; [reflexivity|].
  rewrite (H y) by now left. apply IH. intros z Hz. apply H. now right.
Qed.

End RenameFacts.

(** When the metrics are distinct, stripping leaves the joined names as
    they are, the school column holds neither ["_count"] nor the pattern
    of a metric, and no metric's pattern occurs in the count column or in
    the mean column of another metric, the aggregated frame gets the
    names the view goes on with: [Escola], [Quantidade_Alunos] and one
    [Media_<metric>] per metric, in the order of the metrics; these are
    the columns the correlation is computed for. *)
Theorem medias_por_escola_columns_named (strip : string -> string)
  (coluna_escola primeira : string) (resto : list string) :
  let metrics := primeira :: resto in
  NoDup metrics ->
  (forall m f, In m metrics -> In f ["count"; "mean"] ->
               strip (m ++ "_" ++ f)%string = (m ++ "_" ++ f)%string) ->
  contains "_count" coluna_escola = false ->
  (forall m, In m metrics ->
             contains (m ++ "_mean") coluna_escola = false) ->
  (forall m, In m metrics ->
             contains (m ++ "_mean") (primeira ++ "_count") = false) ->
  (forall m m', In m metrics -> In m' metrics -> m <> m' ->
                contains (m ++ "_mean") (m' ++ "_mean") = false) ->
  medias_por_escola_columns strip coluna_escola metrics
  = "Escola" :: "Quantidade_Alunos"
    :: map (fun m => "Media_" ++ m)%string metrics
  /\ colunas_media (medias_por_escola_columns strip coluna_escola metrics)
     = map (fun m => "Media_" ++ m)%string metrics.
Proof.
  intros metrics Hnd Hstrip He1 He2 Hc Hm.
  assert (Hcols : colunas_agregadas strip coluna_escola metrics
                  = coluna_escola :: (primeira ++ "_count")%string
                    :: map (fun m => (m ++ "_mean")%string) metrics).
  { unfold colunas_agregadas, metrics. rewrite agg_dict_distinct by exact Hnd.
    cbn [flat_map map fst snd app]. f_equal.
    rewrite (Hstrip primeira "count") by (simpl; auto).
    rewrite (Hstrip primeira "mean") by (simpl; auto).
    f_equal. f_equal.
    induction resto as [|m resto IH]; [reflexivity|].
    cbn [map flat_map fst snd app].
    rewrite (Hstrip m "mean") by (simpl; auto). f_equal.
    apply IH.
    - inversion Hnd as [|? ? Hn Hnd']; subst.
      inversion Hnd' as [|? ? Hn' Hnd'']; subst.
      constructor; [|exact Hnd''].
      intros Hin. apply Hn. now right.
    - intros m' f [<-|Hm'] Hf; apply Hstrip; simpl; auto.
    - intros m' [<-|Hm']; apply He2; simpl; auto.
    - intros m' [<-|Hm']; apply Hc; simpl; auto.
    - intros a b [<-|Ha] [<-|Hb]; apply Hm; simpl; auto. }
  assert (Hnames : medias_por_escola_columns strip coluna_escola metrics
                   = "Escola" :: "Quantidade_Alunos"
                     :: map (fun m => "Media_" ++ m)%string metrics).
  { unfold medias_por_escola_columns, rename.
    rewrite (map_ext_in _ _ _
               (rename_dict_get coluna_escola metrics
                  (colunas_agregadas strip coluna_escola metrics))).
    rewrite Hcols.
    set (columns := coluna_escola :: (primeira ++ "_count")%string
                    :: map (fun m => (m ++ "_mean")%string) metrics).
    assert (Hfirst : primeira_count columns
                     = Some (primeira ++ "_count")%string).
    { unfold primeira_count, columns. cbn [find]. rewrite He1.
      now rewrite contains_suffix. }
    assert (Hrev : forall m, In m (rev metrics) <-> In m metrics)
      by (intros m; symmetry; apply in_rev).
    assert (H1 : novo_nome coluna_escola metrics columns coluna_escola
                 = "Escola").
    { unfold novo_nome.
      rewrite find_none
        by (intros m Hin; apply He2; now apply Hrev).
      rewrite Hfirst.
      destruct (String.eqb_spec (primeira ++ "_count") coluna_escola)
        as [Heq|_].
      + rewrite <- Heq, contains_suffix in He1. discriminate.
      + now rewrite String.eqb_refl. }
    assert (H2 : novo_nome coluna_escola metrics columns
                   (primeira ++ "_count")
                 = "Quantidade_Alunos").
    { unfold novo_nome.
      rewrite find_none
        by (intros m Hin; apply Hc; now apply Hrev).
      now rewrite Hfirst, String.eqb_refl. }
    assert (H3 : map (novo_nome coluna_escola metrics columns)
                   (map (fun m => (m ++ "_mean")%string) metrics)
                 = map (fun m => "Media_" ++ m)%string metrics).
    { rewrite map_map. apply map_ext_in. intros m Hin.
      unfold novo_nome.
      rewrite (find_unique _ (rev metrics) m); trivial.
      + now apply Hrev.
      + apply contains_self.
      + intros m' Hm' Hcont. apply Hrev in Hm'.
        destruct (string_dec m' m) as [Heq|Hne]; trivial.
        rewrite (Hm m' m Hm' Hin Hne) in Hcont. discriminate. }
    unfold columns at 2. cbn [map]. now rewrite H1, H2, H3. }
  split; [exact Hnames|].
  rewrite Hnames. unfold colunas_media. cbn [filter String.prefix].
  apply filter_all_iff. intros col Hcol.
  apply in_map_iff in Hcol as [m [<- _]]. apply prefix_append.
Qed.

Lemma medias_por_escola_columns_named_witness :
  medias_por_escola_columns (fun s => s) "Qual a sua escola?"
    ["Total de pontos"; "Nota LP"; "Nota MAT"]
  = ["Escola"; "Quantidade_Alunos"; "Media_Total de pontos";
     "Media_Nota LP"; "Media_Nota MAT"].
Proof.
  apply (proj1 (medias_por_escola_columns_named (fun s => s)
                  "Qual a sua escola?" "Total de pontos"
                  ["Nota LP"; "Nota MAT"]
                  ltac:(repeat constructor; simpl; intuition discriminate)
                  ltac:(intros; reflexivity)
                  ltac:(reflexivity)
                  ltac:(intros m [<-|[<-|[<-|[]]]]; reflexivity)
                  ltac:(intros m [<-|[<-|[<-|[]]]]; reflexivity)
                  ltac:(intros m m' [<-|[<-|[<-|[]]]] [<-|[<-|[<-|[]]]] H;
                        try reflexivity; exfalso; now apply H))).
Defined.

(* ----------------------------------------------------------------- *)
(** ** Upper and lower case *)

Lemma keyword_loop_lowered lower keywords col_lower :
  keyword_loop lower keywords col_lower
  = existsb (fun k => contains k col_lower) (map lower keywords).
Proof.
  rewrite keyword_loop_existsb.
  induction keywords as [|k ks IH]; simpl; [reflexivity|].
  now rewrite IH.
Qed.

(** The search does not see the case of the letters: two lists of labels
    that are the same once lower-cased, searched with two lists of
    keywords that are the same once lower-cased, give the same columns up
    to case, at the same places. *)
Theorem find_similar_columns_ignores_case (lower : string -> string)
  (columns columns' keywords keywords' : list string) :
  map lower columns = map lower columns' ->
  map lower keywords = map lower keywords' ->
  map lower (find_similar_columns lower columns keywords)
  = map lower (find_similar_columns lower columns' keywords')
  /\ List.length (find_similar_columns lower columns keywords)
     = List.length (find_similar_columns lower columns' keywords')
  /\ (find_similar_columns lower columns keywords = []
      <-> find_similar_columns lower columns' keywords' = []).
Proof.
  intros Hc Hk. rewrite !find_similar_columns_filter.
  assert (H : map lower
                (filter (fun col => keyword_loop lower keywords (lower col))
                   columns)
              = map lower
                  (filter (fun col => keyword_loop lower keywords'
                                        (lower col)) columns')).
  { revert columns' Hc.
    induction columns as [|c cs IH]; intros [|c' cs'] Hc;
      try discriminate; [reflexivity|].
    cbn [map] in Hc. injection Hc as Hhead Htail.
    cbn [filter]. rewrite (keyword_loop_lowered lower keywords),
      (keyword_loop_lowered lower keywords'), Hk, Hhead.
    destruct (existsb _ (map lower keywords')); cbn [map].
    - rewrite Hhead. f_equal. now apply IH.
    - now apply IH. }
  split; [exact H|].
  assert (Hlen : List.length
                   (filter (fun col => keyword_loop lower keywords
                                         (lower col)) columns)
                 = List.length
                     (filter (fun col => keyword_loop lower keywords'
                                           (lower col)) columns')).
  { apply (f_equal (@List.length string)) in H.
    now rewrite !length_map in H. }
  split; [exact Hlen|].
  split; intros E; rewrite E in Hlen; simpl in Hlen.
  - destruct (filter _ columns'); [reflexivity|discriminate].
  - destruct (filter _ columns); [reflexivity|discriminate].
Qed.

Lemma find_similar_columns_ignores_case_witness :
  map ascii_lower
    (find_similar_columns ascii_lower ["ESCOLA"; "Nota LP"] ["Escola"])
  = map ascii_lower
      (find_similar_columns ascii_lower ["escola"; "NOTA lp"] ["ESCOLA"]).
Proof.
  apply (proj1 (find_similar_columns_ignores_case ascii_lower
                  ["ESCOLA"; "Nota LP"] ["escola"; "NOTA lp"]
                  ["Escola"] ["ESCOLA"] eq_refl eq_refl)).
Defined.

(* ================================================================= *)
(** * Part IV: the aggregates and the coefficient in binary64 *)

(** The statistics and the coefficient are computed by pandas on binary64
    floats.  What Part II and Part III prove of them over the reals is
    stated here with the values for which it also holds of the binary64
    computation, next to runs of the binary64 definitions that show where
    the two part. *)

(* ----------------------------------------------------------------- *)
(** ** A school's row and the values of that school *)












Section SampleStd.

Variable nonfinite_agg : list float -> linha.
Variable rows : list (cell * float).

Import PrimFloat.
Local Open Scope float_scope.


End SampleStd.


(* ----------------------------------------------------------------- *)
(** ** Runs of the binary64 aggregates and coefficient *)

Section Binary64Runs.

Import PrimFloat.
Local Open Scope float_scope.





End Binary64Runs.

